(** * Dynamic mock server: a shallow embedding of [index.js]

    The server keeps two process-wide maps, [routes] (the registered mocks,
    keyed by ["METHOD /path"]) and [lastRequest] (the rate limiter's
    per-client timestamps), and one snapshot file on disk.  Every handler
    of [index.js] is embedded below as a function in a small state and
    exception monad, so that JavaScript's [throw], [try]/[catch] and the
    mutation of the shared maps are explicit.

    Modelling boundaries, stated once:
    - A JavaScript number is an integer or an infinity; fractional values
      are outside the model, and NaN occurs only as a result of
      [Number(...)] ([None]).  Clock readings and the rate-limit window
      are integers.  The text of a number is JavaScript's for the safe
      integers; a property that depends on it says so.
    - Strings are sequences of 8-bit characters, [toUpperCase] is the
      ASCII case mapping and [trim] strips the ASCII white space.
    - A reply is what a handler hands to Express.  Whether the HTTP layer
      accepts a header, or a status code with the headers set, is a
      parameter of the model.
    - A call is first modelled from its start to its end with nothing in
      between; the writes are then modelled again with the rest of the
      process running at their awaits.
    - A parsed JSON object is the list of its own properties in enumeration
      order; property lookup takes the first binding.
    - The text of a file is observed only through [JSON.parse], and
      [JSON.parse] gives back the value [JSON.stringify] was given. *)

From Stdlib Require Import ZArith Lia List Ascii String.
From stdpp Require Import base option list strings gmap pretty.

Set Warnings "-register-all".

Local Open Scope Z_scope.
Local Open Scope string_scope.

(** ** JavaScript values *)

(** A number other than NaN: an integer, or an infinity ([JSON.parse]
    reads a literal that overflows, such as [1e999], as [Infinity]). *)
Inductive number : Type :=
  | Fin (z : Z)
  | Inf (negative : bool).

Coercion Fin : Z >-> number.

(** A value produced by [JSON.parse]. *)
Inductive json : Type :=
  | JNull
  | JBool (b : bool)
  | JNum (n : number)
  | JStr (s : string)
  | JArr (items : list json)
  | JObj (props : list (string * json)).

(** A JavaScript value that is [undefined] ([None]) or a JSON value. *)
Abbreviation jsval := (option json).

Inductive error : Type :=
  | TypeError (msg : string)
  | RangeError (msg : string)
  | SyntaxError (msg : string)
  | ENOENT (path : string)
  | EACCES (path : string).

(** The completion of a JavaScript computation: a value, or a thrown error. *)
Inductive result (A : Type) : Type :=
  | Ok (a : A)
  | Throw (e : error).
Arguments Ok {A} a.
Arguments Throw {A} e.

Definition rbind {A B} (r : result A) (k : A -> result B) : result B :=
  match r with
  | Ok a => k a
  | Throw e => Throw e
  end.

(** [!v]: the falsy values are [undefined], [null], [false], [0] and [""]. *)
Definition truthy (v : jsval) : bool :=
  match v with
  | None | Some JNull | Some (JBool false) | Some (JNum (Fin 0)) | Some (JStr "") => false
  | Some _ => true
  end.

(** [a || b] on values. *)
Definition js_or (a : jsval) (b : json) : json :=
  match a with
  | Some v => if truthy a then v else b
  | None => b
  end.

(** [o.k] for a property name [k] that no prototype defines: a thrown
    TypeError on [null], the own property of an object, [undefined] on
    every other JSON value (arrays have only index properties here). *)
Fixpoint own (k : string) (props : list (string * json)) : jsval :=
  match props with
  | [] => None
  | (k', v) :: rest => if String.eqb k k' then Some v else own k rest
  end.

Definition prop (o : json) (k : string) : result jsval :=
  match o with
  | JNull => Throw (TypeError "Cannot read properties of null")
  | JObj props => Ok (own k props)
  | _ => Ok None
  end.

(** ** Strings *)

Definition upper_ascii (c : ascii) : ascii :=
  let n := nat_of_ascii c in
  if ((97 <=? n) && (n <=? 122))%nat then ascii_of_nat (n - 32) else c.

Fixpoint upper (s : string) : string :=
  match s with
  | EmptyString => EmptyString
  | String c rest => String (upper_ascii c) (upper rest)
  end.

(** [v.toUpperCase()]: only strings have the method. *)
Definition toUpperCase (v : json) : result string :=
  match v with
  | JStr s => Ok (upper s)
  | _ => Throw (TypeError "toUpperCase is not a function")
  end.

(** [s.startsWith('/')]. *)
Definition startsWith_slash (s : string) : bool :=
  match s with
  | String c _ => Ascii.eqb c "/"%char
  | EmptyString => false
  end.

(** ** [normalizePath] (index.js, lines 71-75) *)

Definition normalizePath (p : jsval) : result string :=
  if negb (truthy p) then Ok "/"
  else match p with
       | Some (JStr s) => if negb (startsWith_slash s) then Ok ("/" +:+ s) else Ok s
       | _ => Throw (TypeError "p.startsWith is not a function")
       end.

(** ** The state and exception monad

    A computation runs on a mutable state [S]; when it throws, the state
    it has reached so far is kept, as the mutations of a JavaScript object
    are when an exception unwinds. *)

Definition M (S A : Type) : Type := S -> result A * S.

#[global] Instance M_ret {S} : MRet (M S) := fun A a s => (Ok a, s).

#[global] Instance M_bind {S} : MBind (M S) := fun A B k c s =>
  match c s with
  | (Ok a, s') => k a s'
  | (Throw e, s') => (Throw e, s')
  end.

(** A pure computation that may throw. *)
Definition lift {S A} (r : result A) : M S A := fun s => (r, s).

Definition gets {S A} (f : S -> A) : M S A := fun s => (Ok (f s), s).

Definition modify {S} (f : S -> S) : M S unit := fun s => (Ok tt, f s).

(** [try { body } catch (err) { handler }]. *)
Definition try_catch {S A} (body : M S A) (handler : error -> M S A) : M S A :=
  fun s =>
    match body s with
    | (Ok a, s') => (Ok a, s')
    | (Throw e, s') => handler e s'
    end.

(** ** [Map]: insertion-ordered, [set] on a present key keeps its place *)

Fixpoint Map_get {V} (k : string) (m : list (string * V)) : option V :=
  match m with
  | [] => None
  | (k', v) :: rest => if String.eqb k k' then Some v else Map_get k rest
  end.

Fixpoint Map_set {V} (k : string) (v : V) (m : list (string * V)) : list (string * V) :=
  match m with
  | [] => [(k, v)]
  | (k', v') :: rest =>
      if String.eqb k k' then (k, v) :: rest else (k', v') :: Map_set k v rest
  end.

(** ** Conversions: [String(v)] and [Number(v)] *)

Definition has_own (k : string) (props : list (string * json)) : bool :=
  match own k props with Some _ => true | None => false end.

(** Decimal digits without the zeros at their end. *)
Fixpoint strip_zeros (digits : string) : string :=
  match digits with
  | EmptyString => EmptyString
  | String c rest =>
      match strip_zeros rest with
      | EmptyString => if Ascii.eqb c "0"%char then EmptyString else String c EmptyString
      | kept => String c kept
      end
  end.

(** [String(n)] for an integer from 1e21 on: the first digit, the digits
    after it up to the last one that is not 0 behind a point, and the
    exponent ([1e+21], [1.5e+21]). *)
Definition exponent_notation (z : Z) : string :=
  let digits := pretty z in
  let exponent := pretty (Z.of_nat (String.length digits) - 1)%Z in
  match strip_zeros digits with
  | EmptyString => digits
  | String d EmptyString => String d "e+" +:+ exponent
  | String d more => String d ("." +:+ more) +:+ "e+" +:+ exponent
  end.

(** [String(n)]: the decimal digits below 1e21, the exponent notation
    from there on.  The digits are those of the integer itself.  They are
    the ones JavaScript prints for a safe integer (up to 2^53 - 1 in
    absolute value); beyond, a double holds few integers and [String]
    rounds to 17 significant digits, so the properties that depend on
    the digits of a number are stated for safe integers. *)
Definition number_ToString (n : number) : string :=
  match n with
  | Fin z =>
      if (Z.abs z <? 1000000000000000000000)%Z then pretty z
      else (if (z <? 0)%Z then "-" else "") +:+ exponent_notation (Z.abs z)
  | Inf false => "Infinity"
  | Inf true => "-Infinity"
  end.

(** [String(v)] on a JSON value.  An array is joined with [","], [null]
    elements printing as nothing.  An object has [Object.prototype.toString]
    unless an own property ["toString"] shadows it; that property is never
    callable in a JSON value, so the conversion then throws. *)
Fixpoint ToString (v : json) : result string :=
  match v with
  | JNull => Ok "null"
  | JBool b => Ok (if b then "true" else "false")
  | JNum n => Ok (number_ToString n)
  | JStr s => Ok s
  | JArr items =>
      (fix join (l : list json) : result string :=
         match l with
         | [] => Ok ""
         | x :: rest =>
             rbind (match x with JNull => Ok "" | _ => ToString x end) (fun s =>
             match rest with
             | [] => Ok s
             | _ => rbind (join rest) (fun r => Ok (s +:+ "," +:+ r))
             end)
         end) items
  | JObj props =>
      if has_own "toString" props
      then Throw (TypeError "Cannot convert object to primitive value")
      else Ok "[object Object]"
  end.

(** [String(v)] when [v] may be [undefined]. *)
Definition String_ (v : jsval) : result string :=
  match v with
  | None => Ok "undefined"
  | Some j => ToString j
  end.

(** [typeof v === 'object']. *)
Definition typeof_object (v : jsval) : bool :=
  match v with
  | Some JNull | Some (JArr _) | Some (JObj _) => true
  | _ => false
  end.

(** [Object.entries(v)] of an object or array. *)
Definition Object_entries (v : json) : list (string * json) :=
  match v with
  | JObj props => props
  | JArr items => imap (fun i x => (pretty (Z.of_nat i), x)) items
  | _ => []
  end.

(** ** Records of the server *)

(** A stored mock definition (the object literals of lines 48-54 and 114). *)
Record Route : Type := mkRoute {
  method : string;
  path : string;
  status : json;
  response : jsval;
  headers : json
}.

Record Request : Type := mkRequest {
  req_ip : option string;             (* req.ip *)
  req_remoteAddress : option string;  (* req.connection.remoteAddress *)
  req_method : string;
  req_path : string;
  (* req.body: express.json() leaves an object or an array there; it is
     represented by its own properties *)
  req_body : list (string * json)
}.

Inductive Body : Type :=
  | BNone                 (* nothing sent yet *)
  | BJson (v : jsval)     (* res.json(v) *)
  | BText (s : string).   (* res.send(s) *)

(** What a handler hands to Express: the status code, the headers it has
    set and the body.  What Express makes of them on the wire (a charset
    added to [Content-Type], an [ETag], no body with a 204 or for [HEAD])
    is Express's. *)
Record Response : Type := mkResponse {
  res_status : json;                     (* res.status(...) *)
  res_headers : list (string * string);  (* the accepted res.set calls, in order *)
  res_body : Body
}.

(** What a middleware or handler did with the request. *)
Inductive verdict : Type :=
  | Next                  (* next() *)
  | Sent (r : Response).

(** The text of a file, as [JSON.parse] sees it: the serialization of a
    value, or text that is not JSON. *)
Inductive file_text : Type :=
  | Serialized (v : json)
  | Garbled (raw : string).

Record Disk : Type := mkDisk {
  files : gmap string file_text;
  unreadable : gset string;   (* reading these fails *)
  unwritable : gset string    (* writing or renaming onto these fails *)
}.

Record World : Type := mkWorld {
  routes : list (string * Route);    (* const routes = new Map() *)
  lastRequest : gmap string Z;       (* const lastRequest = new Map() *)
  disk : Disk;
  clock : Z;                         (* what Date.now() returns, in ms *)
  console : list (string * error)    (* console.error calls, latest first *)
}.

Definition set_routes (f : list (string * Route) -> list (string * Route)) (w : World) : World :=
  mkWorld (f (routes w)) (lastRequest w) (disk w) (clock w) (console w).

Definition set_lastRequest (f : gmap string Z -> gmap string Z) (w : World) : World :=
  mkWorld (routes w) (f (lastRequest w)) (disk w) (clock w) (console w).

Definition set_disk (d : Disk) (w : World) : World :=
  mkWorld (routes w) (lastRequest w) d (clock w) (console w).

Definition set_clock (t : Z) (w : World) : World :=
  mkWorld (routes w) (lastRequest w) (disk w) t (console w).

Definition console_error (msg : string) (e : error) : M World unit :=
  modify (fun w => mkWorld (routes w) (lastRequest w) (disk w) (clock w) ((msg, e) :: console w)).

Definition Date_now : M World Z := gets clock.

(** ** The file system and [JSON] *)

Definition existsSync (p : string) : M World bool :=
  gets (fun w => bool_decide (is_Some (files (disk w) !! p))).

Definition fs_readFile (p : string) : M World file_text :=
  fun w =>
    match files (disk w) !! p with
    | None => (Throw (ENOENT p), w)
    | Some t => if bool_decide (p ∈ unreadable (disk w)) then (Throw (EACCES p), w) else (Ok t, w)
    end.

Definition fs_writeFile (p : string) (data : file_text) : M World unit :=
  fun w =>
    let d := disk w in
    if bool_decide (p ∈ unwritable d) then (Throw (EACCES p), w)
    else (Ok tt, set_disk (mkDisk (<[p := data]> (files d)) (unreadable d) (unwritable d)) w).

Definition fs_rename (src dst : string) : M World unit :=
  fun w =>
    let d := disk w in
    match files d !! src with
    | None => (Throw (ENOENT src), w)
    | Some t =>
        if bool_decide (dst ∈ unwritable d) then (Throw (EACCES dst), w)
        else (Ok tt, set_disk (mkDisk (<[dst := t]> (delete src (files d))) (unreadable d) (unwritable d)) w)
    end.

(** What [JSON.stringify] writes of a value: a number that is not finite
    is written as [null]. *)
Fixpoint stringified (v : json) : json :=
  match v with
  | JNum (Inf _) => JNull
  | JArr items => JArr (map stringified items)
  | JObj props => JObj (map (fun kv => (fst kv, stringified (snd kv))) props)
  | _ => v
  end.

Definition JSON_stringify (v : json) : file_text := Serialized (stringified v).

Definition JSON_parse (t : file_text) : result json :=
  match t with
  | Serialized v => Ok v
  | Garbled _ => Throw (SyntaxError "Unexpected token")
  end.

(** ** The server *)

Section Server.

(** The platform's reading of a string as a number
    ([Number("...")]; [None] is NaN) and the HTTP layer's refusal of a
    header name or value ([res.set] throws). *)
Variable StringToNumber : string -> option number.
Variable header_rejected : string -> string -> bool.

(** The HTTP layer's refusal to send: the error that
    [res.status(code).json(...)] or [res.status(code).send(...)] throws
    for this status code on a response with these headers set, if any.
    Node refuses a status code that is not an integer from 100 to 999,
    and Express a [Content-Type] it cannot parse. *)
Variable send_error : json -> list (string * string) -> option error.

(** The configuration read from the environment at startup (lines 7-12). *)
Variable DATA_FILE : string.
Variable RATE_LIMIT_SECONDS : Z.
Variable RATE_LIMIT_EXEMPT : list string.

(** [Number(v)]: an object is converted through its [valueOf] and
    [toString], an array through [String]. *)
Definition Number (v : json) : result (option number) :=
  match v with
  | JNull => Ok (Some (Fin 0))
  | JBool b => Ok (Some (Fin (if b then 1 else 0)))
  | JNum n => Ok (Some n)
  | JStr s => Ok (StringToNumber s)
  | JArr _ => rbind (ToString v) (fun s => Ok (StringToNumber s))
  | JObj props =>
      if has_own "toString" props
      then Throw (TypeError "Cannot convert object to primitive value")
      else Ok None
  end.

(** [n || 200] on a number: 0 and NaN are falsy. *)
Definition number_or_200 (n : option number) : number :=
  match n with
  | Some (Fin 0) | None => Fin 200
  | Some m => m
  end.

(** *** [atomicWriteFile] (lines 25-29) *)

(** The template literal of line 26. *)
Definition tmp_name (path : string) (now : Z) : string :=
  path +:+ "." +:+ pretty now +:+ ".tmp".

(** Up to the first [await] ... *)
Definition atomicWriteFile_write (path : string) (data : file_text) : M World string :=
  now ← Date_now;
  let tmp := tmp_name path now in
  fs_writeFile tmp data;;
  mret tmp.

(** ... and after it. *)
Definition atomicWriteFile_rename (tmp path : string) : M World unit :=
  fs_rename tmp path.

(** The call from its start to its end, with nothing running at its
    awaits; [atomicWriteFile_among] below is the call among the other
    handlers. *)
Definition atomicWriteFile (path : string) (data : file_text) : M World unit :=
  tmp ← atomicWriteFile_write path data;
  atomicWriteFile_rename tmp path.

(** *** [loadRoutes] (lines 32-60) *)

(** The body of the first [forEach] (line 39): it builds a key and
    drops it. *)
Definition loadRoutes_check (item : json) : result unit :=
  rbind (prop item "method") (fun item_method =>
  rbind (toUpperCase (js_or item_method (JStr "GET"))) (fun m =>
  rbind (prop item "path") (fun item_path =>
  rbind (normalizePath item_path) (fun p =>
  Ok tt)))).

(** The body of the second [forEach] (lines 45-54). *)
Definition loadRoutes_item (item : json) : M World unit :=
  item_method ← lift (prop item "method");
  method ← lift (toUpperCase (js_or item_method (JStr "GET")));
  item_path ← lift (prop item "path");
  path ← lift (normalizePath item_path);
  let key := method +:+ " " +:+ path in
  item_status ← lift (prop item "status");
  item_response ← lift (prop item "response");
  item_headers ← lift (prop item "headers");
  modify (set_routes (Map_set key
    (mkRoute method path (js_or item_status (JNum 200)) item_response
             (js_or item_headers (JObj []))))).

(** [arr.forEach(f)]. *)
Fixpoint forEach {S A} (f : A -> M S unit) (l : list A) : M S unit :=
  match l with
  | [] => mret tt
  | x :: rest => f x;; forEach f rest
  end.

Definition loadRoutes : M World unit :=
  try_catch
    (present ← existsSync DATA_FILE;
     if negb present then mret tt
     else
       raw ← fs_readFile DATA_FILE;
       parsed ← lift (JSON_parse raw);
       match parsed with
       | JArr items =>
           forEach (fun item => lift (loadRoutes_check item)) items;;
           forEach loadRoutes_item items
       | _ => mret tt
       end)
    (fun err => console_error "Failed to load routes:" err).

(** *** [persistRoutes] (lines 63-69) *)

(** The object pushed at line 66, as [JSON.stringify] writes it: a
    property whose value is [undefined] is left out. *)
Definition snapshot_record (v : Route) : json :=
  JObj ([("path", JStr (path v)); ("method", JStr (method v)); ("status", status v)]
        ++ match response v with
           | Some r => [("response", r)]
           | None => []
           end
        ++ [("headers", js_or (Some (headers v)) (JObj []))]).

Definition persistRoutes : M World unit :=
  table ← gets routes;
  let arr := map (fun kv => snapshot_record (snd kv)) table in
  atomicWriteFile DATA_FILE (JSON_stringify (JArr arr)).

(** *** The rate limiter (lines 78-98) *)

(** [req.ip || req.connection.remoteAddress || 'unknown']. *)
Definition client_ip (req : Request) : string :=
  match req_ip req with
  | Some (String c s) => String c s
  | _ => match req_remoteAddress req with
         | Some (String c s) => String c s
         | _ => "unknown"
         end
  end.

(** [Math.floor(Date.now() / 1000)]. *)
Definition seconds (ms : Z) : Z := ms / 1000.

(** [res.status(code).json(body)] on a fresh response. *)
Definition json_response (code : Z) (body : json) : Response :=
  mkResponse (JNum code) [] (BJson (Some body)).

(** The 429 response; its [Retry-After] header is [String(retryAfter)],
    the text of an integer, which [res.set] accepts. *)
Definition too_many_requests (retryAfter : Z) : Response :=
  mkResponse (JNum 429) [("Retry-After", number_ToString retryAfter)]
    (BJson (Some (JObj [("error", JStr "Too many requests");
                        ("retry_after_seconds", JNum retryAfter)]))).

Definition rateLimiter (req : Request) : M World verdict :=
  try_catch
    (let ip := client_ip req in
     if existsb (String.eqb (req_path req)) RATE_LIMIT_EXEMPT then mret Next
     else
       ms ← Date_now;
       let now := seconds ms in
       table ← gets lastRequest;
       let last := match table !! ip with
                   | Some t => if (t =? 0)%Z then 0 else t
                   | None => 0
                   end in
       if (now - last <? RATE_LIMIT_SECONDS)%Z then
         let retryAfter := RATE_LIMIT_SECONDS - (now - last) in
         mret (Sent (too_many_requests retryAfter))
       else
         modify (set_lastRequest (insert ip now));;
         mret Next)
    (fun err => console_error "Rate limiter error" err;; mret Next).

(** *** [POST /register] (lines 105-124) *)

Definition register (req : Request) : M World verdict :=
  let body := req_body req in
  let path := own "path" body in
  let method := default (JStr "GET") (own "method" body) in
  let response := own "response" body in
  let status := default (JNum 200) (own "status" body) in
  let headers := default (JObj []) (own "headers" body) in
  if negb (truthy path) || negb (bool_decide (is_Some response)) then
    mret (Sent (json_response 400 (JObj [("error", JStr "path and response required")])))
  else
    p ← lift (normalizePath path);
    m ← lift (toUpperCase method);
    let key := m +:+ " " +:+ p in
    n ← lift (Number status);
    modify (set_routes (Map_set key (mkRoute m p (JNum (number_or_200 n)) response headers)));;
    failed ← try_catch
      (persistRoutes;; mret None)
      (fun err =>
         console_error "Failed to persist routes:" err;;
         mret (Some (Sent (json_response 500 (JObj [("error", JStr "Failed to persist route")])))));
    match failed with
    | Some v => mret v
    | None =>
        mret (Sent (json_response 200
               (JObj [("message", JStr "Registered"); ("method", JStr m); ("path", JStr p)])))
    end.

(** *** [GET /__routes] (lines 127-131) *)

Definition list_routes : M World verdict :=
  table ← gets routes;
  let out := map (fun kv =>
               JObj [("path", JStr (path (snd kv)));
                     ("method", JStr (method (snd kv)));
                     ("status", status (snd kv))]) table in
  mret (Sent (json_response 200 (JArr out))).

(** *** The catch-all handler (lines 137-159) *)

(** [res.set(k, v)] on the response under construction. *)
Definition res_set (k v : string) : M Response unit :=
  fun res =>
    if header_rejected k v then (Throw (TypeError "Invalid header"), res)
    else (Ok tt, mkResponse (res_status res) (res_headers res ++ [(k, v)]) (res_body res)).

(** The [try] block of lines 144-148. *)
Definition apply_headers (h : json) : M Response unit :=
  if truthy (Some h) && typeof_object (Some h) then
    forEach (fun kv => v ← lift (ToString (snd kv)); res_set (fst kv) v) (Object_entries h)
  else mret tt.

(** [res.status(code).json(b)] and [res.status(code).send(b)] (lines 155
    and 158, outside the [try]). *)
Definition res_send (code : json) (b : Body) (res : Response) : result Response :=
  match send_error code (res_headers res) with
  | Some e => Throw e
  | None => Ok (mkResponse code (res_headers res) b)
  end.

Definition catch_all (req : Request) : M World verdict :=
  p ← lift (normalizePath (Some (JStr (req_path req))));
  let key := upper (req_method req) +:+ " " +:+ p in
  table ← gets routes;
  match Map_get key table with
  | None => mret (Sent (json_response 404 (JObj [("error", JStr "Not found")])))
  | Some route =>
      let res0 := mkResponse (JNum 200) [] BNone in
      let res := snd (try_catch (apply_headers (headers route)) (fun _ => mret tt) res0) in
      if typeof_object (response route) then
        sent ← lift (res_send (status route) (BJson (response route)) res);
        mret (Sent sent)
      else
        text ← lift (String_ (response route));
        sent ← lift (res_send (status route) (BText text) res);
        mret (Sent sent)
  end.

End Server.

(** ** Vocabulary of the properties *)

(** The process at line 162: both maps empty, nothing logged yet. *)
Definition startup (d : Disk) (now : Z) : World := mkWorld [] ∅ d now [].

(** A registration body that passes the check of line 107 and is typed as
    the handler's documentation has it: [path] a non-empty string,
    [method] absent or a string, [response] present, [status] absent or
    a primitive. *)
Definition well_typed_body (body : list (string * json)) : bool :=
  match own "path" body with Some (JStr (String _ _)) => true | _ => false end
  && match own "method" body with None | Some (JStr _) => true | _ => false end
  && bool_decide (is_Some (own "response" body))
  && match own "status" body with
     | None | Some JNull | Some (JBool _) | Some (JNum _) | Some (JStr _) => true
     | _ => false
     end.

(** The canonical method of a body: its method in upper case, [GET] when
    absent. *)
Definition canonical_method (body : list (string * json)) : string :=
  match own "method" body with
  | Some (JStr s) => upper s
  | _ => "GET"
  end.

(** The normalized path of a body. *)
Definition canonical_path (body : list (string * json)) : string :=
  match own "path" body with
  | Some (JStr s) => if startsWith_slash s then s else "/" +:+ s
  | _ => "/"
  end.

Definition route_key (m p : string) : string := m +:+ " " +:+ p.

(** The definition a well-typed body registers. *)
Definition registered_route (StringToNumber : string -> option number)
    (body : list (string * json)) : Route :=
  mkRoute (canonical_method body) (canonical_path body)
    (JNum (number_or_200
       match default (JNum 200) (own "status" body) with
       | JNull => Some (Fin 0)
       | JBool b => Some (Fin (if b then 1 else 0))
       | JNum n => Some n
       | JStr s => StringToNumber s
       | _ => None
       end))
    (own "response" body)
    (default (JObj []) (own "headers" body)).

(** How the catch-all handler renders a stored response: objects, arrays
    and [null] as JSON, everything else as text. *)
Definition rendered_body (r : jsval) : Body :=
  match r with
  | None => BText "undefined"
  | Some JNull => BJson (Some JNull)
  | Some (JBool b) => BText (if b then "true" else "false")
  | Some (JNum n) => BText (number_ToString n)
  | Some (JStr s) => BText s
  | Some (JArr items) => BJson (Some (JArr items))
  | Some (JObj props) => BJson (Some (JObj props))
  end.

(** A run of the server on a sequence of registration requests, each
    arriving at its own clock reading.  A request that ends in a thrown
    error leaves the process running with the state reached. *)
Fixpoint serve_registrations (StringToNumber : string -> option number) (DATA_FILE : string)
    (reqs : list (Z * Request)) (w : World) : World :=
  match reqs with
  | [] => w
  | (now, req) :: rest =>
      serve_registrations StringToNumber DATA_FILE rest
        (snd (register StringToNumber DATA_FILE req (set_clock now w)))
  end.

(** The states a process can be in, as far as [routes] is concerned: it
    starts empty, is loaded from the snapshot, is changed by
    registrations; nothing else writes to [routes]. *)
Inductive reachable (StringToNumber : string -> option number) (DATA_FILE : string) :
    World -> Prop :=
  | reach_start w : routes w = [] -> reachable StringToNumber DATA_FILE w
  | reach_load w :
      reachable StringToNumber DATA_FILE w ->
      reachable StringToNumber DATA_FILE (snd (loadRoutes DATA_FILE w))
  | reach_register w req :
      reachable StringToNumber DATA_FILE w ->
      reachable StringToNumber DATA_FILE (snd (register StringToNumber DATA_FILE req w))
  | reach_other w w' :
      reachable StringToNumber DATA_FILE w -> routes w' = routes w ->
      reachable StringToNumber DATA_FILE w'.

(** The number of definitions a table holds for a (method, path) pair. *)
Definition definitions_for (m p : string) (table : list (string * Route)) : nat :=
  length (List.filter (fun kv => String.eqb (method (snd kv)) m && String.eqb (path (snd kv)) p) table).

(** The number of entries of a [GET /__routes] reply for a (method, path)
    pair. *)
Definition listed_for (m p : string) (out : list json) : nat :=
  length (List.filter (fun e =>
    match e with
    | JObj props =>
        match own "method" props, own "path" props with
        | Some (JStr m'), Some (JStr p') => String.eqb m' m && String.eqb p' p
        | _, _ => false
        end
    | _ => false
    end) out).

(** The three replies of [POST /register]. *)
Definition bad_request : Response :=
  json_response 400 (JObj [("error", JStr "path and response required")]).

Definition persist_failed : Response :=
  json_response 500 (JObj [("error", JStr "Failed to persist route")]).

Definition registered (m p : string) : Response :=
  json_response 200 (JObj [("message", JStr "Registered"); ("method", JStr m); ("path", JStr p)]).

(** Every entry of the table sits under the key made of its own method
    and path, and no key occurs twice. *)
Definition keyed (table : list (string * Route)) : Prop :=
  Forall (fun kv => fst kv = route_key (method (snd kv)) (path (snd kv))) table.

Definition table_wf (table : list (string * Route)) : Prop :=
  List.NoDup (map fst table) /\ keyed table.

(** The shape of a definition stored by [POST /register]. *)
Definition registered_shape (r : Route) : Prop :=
  upper (method r) = method r
  /\ startsWith_slash (path r) = true
  /\ (exists n, status r = JNum n /\ n <> Fin 0)
  /\ is_Some (response r).

(** What [loadRoutes] stores for the snapshot record of a definition. *)
Definition reload_of (r : Route) : Route :=
  mkRoute (upper (if String.eqb (method r) "" then "GET" else method r))
          (if startsWith_slash (path r) then path r else "/" +:+ path r)
          (js_or (Some (stringified (status r))) (JNum 200))
          (stringified <$> response r)
          (js_or (Some (stringified (js_or (Some (headers r)) (JObj [])))) (JObj [])).

(** A value without infinite numbers. *)
Fixpoint finite (v : json) : bool :=
  match v with
  | JNum (Inf _) => false
  | JArr items => forallb finite items
  | JObj props => forallb (fun kv => finite (snd kv)) props
  | _ => true
  end.

Definition finite_route (r : Route) : bool :=
  finite (status r) && from_option finite true (response r) && finite (headers r).

(** The timestamp the limiter compares with: the recorded one, or 0. *)
Definition last_or_0 (req : Request) (w : World) : Z :=
  default 0 (lastRequest w !! client_ip req).

(** What a reload makes of a stored definition: headers that are falsy
    come back as the empty object. *)
Definition reloaded (r : Route) : Route :=
  mkRoute (method r) (path r) (status r) (response r) (js_or (Some (headers r)) (JObj [])).

(** A stand-in for the platform's string-to-number conversion in the
    examples: plain digit strings and the empty string, NaN otherwise. *)
Fixpoint digits_value (s : string) (acc : Z) : option Z :=
  match s with
  | EmptyString => Some acc
  | String c rest =>
      let n := Z.of_nat (nat_of_ascii c) in
      if (48 <=? n)%Z && (n <=? 57)%Z then digits_value rest (10 * acc + (n - 48)) else None
  end.

Definition example_StringToNumber (s : string) : option number := Fin <$> digits_value s 0.

(** The HTTP layer of the examples refuses an empty header name. *)
Definition example_header_rejected (k v : string) : bool := String.eqb k "".

(** The HTTP layer of the examples accepts a status code that is an integer
    from 100 to 999 and refuses every other, whatever the headers. *)
Definition example_send_error (code : json) (hs : list (string * string)) : option error :=
  match code with
  | JNum (Fin z) =>
      if (100 <=? z)%Z && (z <=? 999)%Z then None
      else Some (RangeError "Invalid status code")
  | _ => Some (RangeError "Invalid status code")
  end.

(** A disk with no files and no faults. *)
Definition empty_disk : Disk := mkDisk ∅ ∅ ∅.

(** Whether a string contains the path separator. *)
Fixpoint has_slash (s : string) : bool :=
  match s with
  | EmptyString => false
  | String c rest => Ascii.eqb c "/"%char || has_slash rest
  end.

(** ** The rest of [index.js] *)

(** *** The configuration (lines 6-12) *)

(** White space, as [trim] sees it among the ASCII characters.  The white
    space beyond ASCII that [String.prototype.trim] strips as well (U+00A0,
    U+FEFF, the Unicode spaces) is not told apart from other characters:
    what depends on it is stated for ASCII strings. *)
Definition is_space (c : ascii) : bool :=
  let n := nat_of_ascii c in
  ((9 <=? n) && (n <=? 13))%nat || (n =? 32)%nat.

(** [s.split(',')]: the empty string splits into one empty piece. *)
Fixpoint split_comma (s : string) : list string :=
  match s with
  | EmptyString => [EmptyString]
  | String c rest =>
      if Ascii.eqb c ","%char then EmptyString :: split_comma rest
      else match split_comma rest with
           | piece :: pieces => String c piece :: pieces
           | [] => [String c EmptyString]
           end
  end.

Fixpoint trimStart (s : string) : string :=
  match s with
  | EmptyString => EmptyString
  | String c rest => if is_space c then trimStart rest else s
  end.

Fixpoint trimEnd (s : string) : string :=
  match s with
  | EmptyString => EmptyString
  | String c rest =>
      match trimEnd rest with
      | EmptyString => if is_space c then EmptyString else String c EmptyString
      | kept => String c kept
      end
  end.

(** [s.trim()]. *)
Definition trim (s : string) : string := trimEnd (trimStart s).

(** [.filter(Boolean)] on strings: the empty ones go. *)
Definition nonempty (s : string) : bool :=
  match s with
  | EmptyString => false
  | String _ _ => true
  end.

(** [process.env.X || d] for a string default. *)
Definition env_or (env : option string) (d : string) : string :=
  match env with
  | Some (String c s) => String c s
  | _ => d
  end.

(** Lines 9-12: the exempt paths read from [RATE_LIMIT_EXEMPT]. *)
Definition read_RATE_LIMIT_EXEMPT (env : option string) : list string :=
  List.filter nonempty (map trim (split_comma (env_or env ""))).

(** Line 7. *)
Definition read_DATA_FILE (env : option string) : string := env_or env "./data.json".

(** Line 8: the window, NaN ([None]) when the variable is not a number. *)
Definition read_RATE_LIMIT_SECONDS (StringToNumber : string -> option number)
    (env : option string) : option number :=
  match env with
  | Some (String c s) => StringToNumber (String c s)
  | _ => Some (Fin 10)
  end.

(** [arr.join(sep)] on strings. *)
Fixpoint join (sep : string) (l : list string) : string :=
  match l with
  | [] => EmptyString
  | [x] => x
  | x :: rest => x +:+ sep +:+ join sep rest
  end.

Fixpoint has_char (c : ascii) (s : string) : bool :=
  match s with
  | EmptyString => false
  | String c' rest => Ascii.eqb c' c || has_char c rest
  end.

(** A string that [trim] leaves alone and [split(',')] does not cut: not
    empty, no comma, no white space at either end. *)
Definition exempt_entry (s : string) : Prop :=
  s <> "" /\ has_char "," s = false /\ trim s = s.

(** *** [GET /health] (line 134) *)

Definition health : M World verdict :=
  mret (Sent (json_response 200 (JObj [("status", JStr "ok")]))).

(** *** The order of the middleware and the routes (lines 78-159) *)

Section Pipeline.

Variable StringToNumber : string -> option number.
Variable header_rejected : string -> string -> bool.
Variable send_error : json -> list (string * string) -> option error.
Variable DATA_FILE : string.
Variable RATE_LIMIT_SECONDS : Z.
Variable RATE_LIMIT_EXEMPT : list string.

(** Express's decision that a route declared for a verb and a path
    handles a request. *)
Variable route_matches : string -> string -> Request -> bool.

(** A request whose body has been parsed (lines 21-22 come first) goes
    through the rate limiter, then to the first route that matches it;
    [app.all('*')] matches every request. *)
Definition handle (req : Request) : M World verdict :=
  limited ← rateLimiter RATE_LIMIT_SECONDS RATE_LIMIT_EXEMPT req;
  match limited with
  | Sent res => mret (Sent res)
  | Next =>
      if route_matches "POST" "/register" req then register StringToNumber DATA_FILE req
      else if route_matches "GET" "/__routes" req then list_routes
      else if route_matches "GET" "/health" req then health
      else catch_all header_rejected send_error req
  end.

End Pipeline.

(** *** The writes among the other handlers (lines 25-29, 63-69, 116-121)

    [atomicWriteFile], [persistRoutes] and [register] above run a call
    from its start to its end with nothing in between.  The source awaits
    the write and the rename (lines 27 and 28), and other handlers run
    meanwhile.  Below, [before] is what the rest of the process has done
    to the state by the time the write lands, and [between] what it has
    done from then until the rename lands.  The code after an [await]
    runs as soon as the awaited operation has landed, so the rest of the
    process runs only while an operation is pending: these are the two
    places.  A file operation lands at once, as in [fs_writeFile] and
    [fs_rename]. *)

Section Among.

Variable StringToNumber : string -> option number.
Variable DATA_FILE : string.
Variable before between : World -> World.

Definition atomicWriteFile_among (path : string) (data : file_text) : M World unit :=
  now ← Date_now;
  let tmp := tmp_name path now in
  modify before;;
  fs_writeFile tmp data;;
  modify between;;
  fs_rename tmp path.

Definition persistRoutes_among : M World unit :=
  table ← gets routes;
  let arr := map (fun kv => snapshot_record (snd kv)) table in
  atomicWriteFile_among DATA_FILE (JSON_stringify (JArr arr)).

(** [POST /register] with [persistRoutes] running among the others. *)
Definition register_among (req : Request) : M World verdict :=
  let body := req_body req in
  let path := own "path" body in
  let method := default (JStr "GET") (own "method" body) in
  let response := own "response" body in
  let status := default (JNum 200) (own "status" body) in
  let headers := default (JObj []) (own "headers" body) in
  if negb (truthy path) || negb (bool_decide (is_Some response)) then
    mret (Sent (json_response 400 (JObj [("error", JStr "path and response required")])))
  else
    p ← lift (normalizePath path);
    m ← lift (toUpperCase method);
    let key := m +:+ " " +:+ p in
    n ← lift (Number StringToNumber status);
    modify (set_routes (Map_set key (mkRoute m p (JNum (number_or_200 n)) response headers)));;
    failed ← try_catch
      (persistRoutes_among;; mret None)
      (fun err =>
         console_error "Failed to persist routes:" err;;
         mret (Some (Sent (json_response 500 (JObj [("error", JStr "Failed to persist route")])))));
    match failed with
    | Some v => mret v
    | None =>
        mret (Sent (json_response 200
               (JObj [("message", JStr "Registered"); ("method", JStr m); ("path", JStr p)])))
    end.

End Among.




(** *** Vocabulary of the further properties *)

(** A method without a space, as every HTTP method is. *)
Definition no_space (s : string) : Prop := has_char " " s = false.

(** [item.k] when reading it does not throw. *)
Definition field (item : json) (k : string) : jsval :=
  match item with
  | JObj props => own k props
  | _ => None
  end.

(** The definition [loadRoutes] stores for a record that passes its
    first loop. *)
Definition item_route (item : json) : Route :=
  mkRoute
    match js_or (field item "method") (JStr "GET") with
    | JStr s => upper s
    | _ => ""
    end
    match normalizePath (field item "path") with
    | Ok p => p
    | Throw _ => "/"
    end
    (js_or (field item "status") (JNum 200))
    (field item "response")
    (js_or (field item "headers") (JObj [])).

(** A value on which [|| d] followed by a string method does not throw:
    a string, or a falsy value. *)
Definition string_or_falsy (v : jsval) : bool :=
  match v with
  | Some (JStr _) => true
  | _ => negb (truthy v)
  end.

(** A snapshot record the first loop of [loadRoutes] gets past: not
    [null], with a method and a path that are strings or falsy. *)
Definition loadable (item : json) : bool :=
  match item with
  | JNull => false
  | _ => string_or_falsy (field item "method") && string_or_falsy (field item "path")
  end.

(** The shape of a definition stored by [loadRoutes]. *)
Definition loaded_shape (r : Route) : Prop :=
  upper (method r) = method r /\ method r <> ""
  /\ startsWith_slash (path r) = true
  /\ truthy (Some (status r)) = true
  /\ truthy (Some (headers r)) = true.

(** The safe integers, up to 2^53 - 1 in absolute value: [String] prints
    their decimal digits, as [number_ToString] does. *)
Definition safe_number (n : number) : bool :=
  match n with
  | Fin z => (Z.abs z <=? 9007199254740991)%Z
  | Inf _ => true
  end.

(** A value in whose text, as [String(v)] writes it, every number is
    safe.  An object prints none of its contents. *)
Fixpoint printable (v : json) : bool :=
  match v with
  | JNum n => safe_number n
  | JArr items => forallb printable items
  | _ => true
  end.

(** A stored response whose text, when the catch-all handler sends it as
    text, holds safe numbers only: anything but a number that is not
    safe. *)
Definition printable_response (r : jsval) : bool :=
  match r with
  | Some (JNum n) => safe_number n
  | _ => true
  end.

(** The headers the catch-all handler has set when its loop ends: those
    before the first one that cannot be converted or is refused. *)
Fixpoint accepted_headers (header_rejected : string -> string -> bool)
    (entries : list (string * json)) : list (string * string) :=
  match entries with
  | [] => []
  | (k, v) :: rest =>
      match ToString v with
      | Ok s => if header_rejected k s then []
                else (k, s) :: accepted_headers header_rejected rest
      | Throw _ => []
      end
  end.

(** The routing of the examples: the verb and the path are compared as
    they are. *)
Definition example_route_matches (verb path : string) (req : Request) : bool :=
  String.eqb (req_method req) verb && String.eqb (req_path req) path.

(** * Properties *)

Local Open Scope Z_scope.

(** Unfolds the monad's operations in the goal. *)
Ltac run_monad :=
  repeat progress
    (unfold console_error, Date_now, existsSync, mbind, M_bind, mret, M_ret, lift, gets,
       modify, try_catch;
     cbn beta iota).

(** ** Path normalisation *)

Lemma normalizePath_string (p : string) :
  normalizePath (Some (JStr p)) = Ok (if startsWith_slash p then p else "/" +:+ p).
Proof.
  unfold normalizePath. destruct p as [|c p]; [reflexivity|].
  cbn. destruct (Ascii.eqb c "/"); reflexivity.
Qed.

Lemma startsWith_slash_normalized (p : string) :
  startsWith_slash (if startsWith_slash p then p else "/" +:+ p) = true.
Proof. destruct (startsWith_slash p) eqn:E; [exact E | reflexivity]. Qed.

(** C9. [normalizePath] maps the empty string and a missing argument to
    ["/"], prefixes ["/"] to a string that does not start with it, returns
    any other string unchanged, and is idempotent on strings. *)
Theorem normalizePath_spec (p : string) :
  normalizePath (Some (JStr "")) = Ok "/"
  /\ normalizePath None = Ok "/"
  /\ normalizePath (Some (JStr p))
     = Ok (if startsWith_slash p then p else "/" +:+ p)
  /\ rbind (normalizePath (Some (JStr p))) (fun q => normalizePath (Some (JStr q)))
     = normalizePath (Some (JStr p)).
Proof.
  repeat split; try reflexivity.
  - apply normalizePath_string.
  - rewrite normalizePath_string. cbn [rbind].
    rewrite normalizePath_string, startsWith_slash_normalized. reflexivity.
Qed.

(** ** The rate limiter *)

Section RateLimiter.

Variable RATE_LIMIT_SECONDS : Z.
Variable RATE_LIMIT_EXEMPT : list string.

Let limiter := rateLimiter RATE_LIMIT_SECONDS RATE_LIMIT_EXEMPT.

(** The limiter, as one case distinction. *)
Lemma rateLimiter_run (req : Request) (w : World) :
  limiter req w =
    if existsb (String.eqb (req_path req)) RATE_LIMIT_EXEMPT then (Ok Next, w)
    else
      let now := seconds (clock w) in
      let last := last_or_0 req w in
      if now - last <? RATE_LIMIT_SECONDS
      then (Ok (Sent (too_many_requests (RATE_LIMIT_SECONDS - (now - last)))), w)
      else (Ok Next, set_lastRequest (insert (client_ip req) now) w).
Proof.
  unfold limiter, rateLimiter, last_or_0. run_monad.
  destruct (existsb _ _); [reflexivity|].
  destruct (lastRequest w !! client_ip req) as [t|]; unfold default; cbn [from_option id].
  - destruct (Z.eqb_spec t 0) as [->|_];
      destruct (_ <? _); reflexivity.
  - destruct (_ <? _); reflexivity.
Qed.

Lemma existsb_eqb_In (s : string) (l : list string) :
  existsb (String.eqb s) l = true <-> In s l.
Proof.
  rewrite existsb_exists. split.
  - intros (x & Hx & E). apply String.eqb_eq in E. subst. exact Hx.
  - intros H. exists s. split; [exact H | apply String.eqb_refl].
Qed.

(** With a timestamp on record the limiter decides as a cooldown does:
    admit and refresh once the window has passed, else reject with the
    remaining wait and leave the record alone. *)
Lemma rateLimiter_recorded (req : Request) (w : World) (last : Z) :
  ~ In (req_path req) RATE_LIMIT_EXEMPT ->
  lastRequest w !! client_ip req = Some last ->
  let now := seconds (clock w) in
  (RATE_LIMIT_SECONDS <= now - last ->
     limiter req w = (Ok Next, set_lastRequest (insert (client_ip req) now) w))
  /\ (now - last < RATE_LIMIT_SECONDS ->
     limiter req w
     = (Ok (Sent (too_many_requests (RATE_LIMIT_SECONDS - (now - last)))), w)).
Proof.
  intros Hex Hlast now. rewrite rateLimiter_run.
  destruct (existsb _ _) eqn:E; [apply existsb_eqb_In in E; contradiction|].
  unfold last_or_0. rewrite Hlast. unfold default; cbn [from_option id]. fold now.
  split; intros H.
  - destruct (Z.ltb_spec (now - last) RATE_LIMIT_SECONDS); [lia | reflexivity].
  - destruct (Z.ltb_spec (now - last) RATE_LIMIT_SECONDS); [reflexivity | lia].
Qed.

(** A first request is admitted when the clock, in seconds, has reached
    the window. *)
Lemma rateLimiter_first_late (req : Request) (w : World) :
  ~ In (req_path req) RATE_LIMIT_EXEMPT ->
  lastRequest w !! client_ip req = None ->
  RATE_LIMIT_SECONDS <= seconds (clock w) ->
  limiter req w
  = (Ok Next, set_lastRequest (insert (client_ip req) (seconds (clock w))) w).
Proof.
  intros Hex Hlast Hnow. rewrite rateLimiter_run.
  destruct (existsb _ _) eqn:E; [apply existsb_eqb_In in E; contradiction|].
  unfold last_or_0. rewrite Hlast. unfold default; cbn [from_option id]. cbv zeta.
  destruct (Z.ltb_spec (seconds (clock w) - 0) RATE_LIMIT_SECONDS); [lia | reflexivity].
Qed.

(** A first request is rejected when it has not. *)
Lemma rateLimiter_first_early (req : Request) (w : World) :
  ~ In (req_path req) RATE_LIMIT_EXEMPT ->
  lastRequest w !! client_ip req = None ->
  seconds (clock w) < RATE_LIMIT_SECONDS ->
  limiter req w
  = (Ok (Sent (too_many_requests (RATE_LIMIT_SECONDS - (seconds (clock w) - 0)))), w).
Proof.
  intros Hex Hlast Hnow. rewrite rateLimiter_run.
  destruct (existsb _ _) eqn:E; [apply existsb_eqb_In in E; contradiction|].
  unfold last_or_0. rewrite Hlast. unfold default; cbn [from_option id]. cbv zeta.
  destruct (Z.ltb_spec (seconds (clock w) - 0) RATE_LIMIT_SECONDS); [reflexivity | lia].
Qed.

(** C7. A request whose path is exempt is admitted and leaves the whole
    state, the client's timestamp included, as it was; any later request
    is therefore decided as if the exempt one had never arrived. *)
Theorem rateLimiter_exempt_frame (req : Request) (w : World) :
  In (req_path req) RATE_LIMIT_EXEMPT ->
  rateLimiter RATE_LIMIT_SECONDS RATE_LIMIT_EXEMPT req w = (Ok Next, w)
  /\ lastRequest (snd (rateLimiter RATE_LIMIT_SECONDS RATE_LIMIT_EXEMPT req w))
       !! client_ip req
     = lastRequest w !! client_ip req
  /\ forall (later : Z) (req' : Request),
       rateLimiter RATE_LIMIT_SECONDS RATE_LIMIT_EXEMPT req'
         (set_clock later (snd (rateLimiter RATE_LIMIT_SECONDS RATE_LIMIT_EXEMPT req w)))
       = rateLimiter RATE_LIMIT_SECONDS RATE_LIMIT_EXEMPT req' (set_clock later w).
Proof.
  intros Hex.
  assert (E : rateLimiter RATE_LIMIT_SECONDS RATE_LIMIT_EXEMPT req w = (Ok Next, w)).
  { fold limiter. rewrite rateLimiter_run.
    apply existsb_eqb_In in Hex. rewrite Hex. reflexivity. }
  rewrite E. repeat split.
Qed.

End RateLimiter.

(** ** Loading the snapshot *)

Section Load.

Variable DATA_FILE : string.

(** Whatever the [try] block does, the [catch] ends it normally. *)
Lemma loadRoutes_completes (w : World) : fst (loadRoutes DATA_FILE w) = Ok tt.
Proof.
  unfold loadRoutes, try_catch.
  match goal with |- context [match ?c with _ => _ end] => destruct c as [[[]|e] w'] end;
    reflexivity.
Qed.

Lemma loadRoutes_absent (w : World) :
  files (disk w) !! DATA_FILE = None -> loadRoutes DATA_FILE w = (Ok tt, w).
Proof.
  intros H. unfold loadRoutes. run_monad.
  rewrite H. rewrite bool_decide_eq_false_2; [reflexivity|].
  intros [x Hx]. discriminate.
Qed.

Lemma loadRoutes_unreadable (w : World) (t : file_text) :
  files (disk w) !! DATA_FILE = Some t ->
  DATA_FILE ∈ unreadable (disk w) ->
  loadRoutes DATA_FILE w
  = (Ok tt, mkWorld (routes w) (lastRequest w) (disk w) (clock w)
              (("Failed to load routes:", EACCES DATA_FILE) :: console w)).
Proof.
  intros H Hu. unfold loadRoutes. run_monad.
  rewrite H. rewrite bool_decide_eq_true_2 by eauto. cbn [negb].
  unfold fs_readFile. rewrite H. rewrite bool_decide_eq_true_2 by exact Hu.
  reflexivity.
Qed.

Lemma loadRoutes_garbled (w : World) (raw : string) :
  files (disk w) !! DATA_FILE = Some (Garbled raw) ->
  exists e,
    loadRoutes DATA_FILE w
    = (Ok tt, mkWorld (routes w) (lastRequest w) (disk w) (clock w)
                (("Failed to load routes:", e) :: console w)).
Proof.
  intros H.
  destruct (decide (DATA_FILE ∈ unreadable (disk w))) as [Hu|Hu].
  - eexists. apply (loadRoutes_unreadable _ _ H Hu).
  - eexists. unfold loadRoutes. run_monad.
    rewrite H. rewrite bool_decide_eq_true_2 by eauto. cbn [negb].
    unfold fs_readFile. rewrite H. rewrite bool_decide_eq_false_2 by exact Hu.
    cbn. reflexivity.
Qed.

(** C6. [loadRoutes] never throws.  At startup, an absent snapshot
    leaves the route table empty and logs nothing; a snapshot that
    cannot be read, or that is not JSON, is logged and leaves the route
    table empty. *)
Theorem loadRoutes_fail_open (d : Disk) (now : Z) :
  (forall w, fst (loadRoutes DATA_FILE w) = Ok tt)
  /\ (files d !! DATA_FILE = None ->
      loadRoutes DATA_FILE (startup d now) = (Ok tt, startup d now))
  /\ (forall t, files d !! DATA_FILE = Some t ->
      DATA_FILE ∈ unreadable d \/ (exists raw, t = Garbled raw) ->
      exists e w',
        loadRoutes DATA_FILE (startup d now) = (Ok tt, w')
        /\ routes w' = []
        /\ console w' = [("Failed to load routes:", e)]).
Proof.
  split; [exact loadRoutes_completes|]. split.
  - intros H. apply loadRoutes_absent. exact H.
  - intros t Ht [Hu | [raw ->]].
    + eexists _, _. split; [apply (loadRoutes_unreadable (startup d now) t Ht Hu)|].
      split; reflexivity.
    + destruct (loadRoutes_garbled (startup d now) raw Ht) as [e He].
      eexists _, _. split; [exact He|]. split; reflexivity.
Qed.

End Load.

(** ** The catch-all handler *)

Section CatchAll.

Variable header_rejected : string -> string -> bool.
Variable send_error : json -> list (string * string) -> option error.

(** Rendering a value that is not an object never throws. *)
Lemma String_not_object (r : jsval) :
  typeof_object r = false ->
  exists text, String_ r = Ok text /\ rendered_body r = BText text.
Proof.
  destruct r as [[| b | n | s | items | props]|]; cbn; intros H;
    try discriminate; eexists; split; reflexivity.
Qed.

Lemma header_loop_run (entries : list (string * json)) (res : Response) :
  snd (forEach (fun kv => v ← lift (ToString (snd kv)); res_set header_rejected (fst kv) v)
         entries res)
  = mkResponse (res_status res)
      (res_headers res ++ accepted_headers header_rejected entries) (res_body res).
Proof.
  revert res. induction entries as [|[k v] entries IH]; intros res; cbn [forEach accepted_headers].
  - run_monad. cbn. rewrite app_nil_r. destruct res; reflexivity.
  - run_monad. cbn [fst snd]. destruct (ToString v) as [s|e]; cbn.
    + unfold res_set. destruct (header_rejected k s); cbn.
      * rewrite app_nil_r. destruct res; reflexivity.
      * rewrite IH. cbn. rewrite <- app_assoc. reflexivity.
    + rewrite app_nil_r. destruct res; reflexivity.
Qed.

Lemma apply_headers_run (h : json) :
  snd (try_catch (apply_headers header_rejected h) (fun _ => mret tt)
         (mkResponse (JNum 200) [] BNone))
  = mkResponse (JNum 200) (accepted_headers header_rejected (Object_entries h)) BNone.
Proof.
  unfold apply_headers.
  destruct (truthy (Some h) && typeof_object (Some h)) eqn:E.
  - pose proof (header_loop_run (Object_entries h) (mkResponse (JNum 200) [] BNone)) as H.
    unfold try_catch.
    destruct (forEach _ (Object_entries h) _) as [[[]|e] res]; cbn in *; exact H.
  - destruct h as [| b | n | s | items | props]; try reflexivity; discriminate E.
Qed.

(** The catch-all handler, as one case distinction. *)
Lemma catch_all_run (req : Request) (w : World) :
  catch_all header_rejected send_error req w
  = match Map_get
            (upper (req_method req) +:+ " "
             +:+ (if startsWith_slash (req_path req) then req_path req
                  else "/" +:+ req_path req))
            (routes w) with
    | None => (Ok (Sent (json_response 404 (JObj [("error", JStr "Not found")]))), w)
    | Some route =>
        match send_error (status route)
                (accepted_headers header_rejected (Object_entries (headers route))) with
        | None =>
            (Ok (Sent (mkResponse (status route)
                         (accepted_headers header_rejected (Object_entries (headers route)))
                         (rendered_body (response route)))), w)
        | Some e => (Throw e, w)
        end
    end.
Proof.
  unfold catch_all. run_monad. rewrite normalizePath_string. cbn beta iota.
  destruct (Map_get _ (routes w)) as [route|]; [|reflexivity].
  pose proof (apply_headers_run (headers route)) as Hh. unfold try_catch, mret, M_ret in Hh.
  rewrite Hh. unfold res_send. cbn [res_headers].
  destruct (typeof_object (response route)) eqn:Hobj.
  - destruct (send_error _ _); [reflexivity|].
    destruct (response route) as [[| b | n | s | items | props]|];
      cbn in Hobj; try discriminate; reflexivity.
  - destruct (String_not_object _ Hobj) as (text & Htext & Hbody).
    rewrite Htext, Hbody. cbn. destruct (send_error _ _); reflexivity.
Qed.

(** C10, as the code has it.  When the request matches a stored route, an
    exception raised while a stored header is applied (a value that cannot
    be converted to a string, a header the HTTP layer refuses) is caught
    and ends the header loop, nothing else: the handler goes on to send
    the stored status and the rendered stored response with the headers
    applied so far.  Sending is outside the [try]: when the HTTP layer
    accepts the stored status with those headers the reply is sent, and
    when it refuses them the handler throws the HTTP layer's error; it
    throws nothing else.  The numbers whose text reaches the reply are
    safe integers, where [number_ToString] is [String]. *)
Theorem catch_all_header_errors_ignored (req : Request) (w : World) (route : Route) :
  Map_get
    (upper (req_method req) +:+ " "
     +:+ (if startsWith_slash (req_path req) then req_path req else "/" +:+ req_path req))
    (routes w) = Some route ->
  printable_response (response route) = true ->
  forallb (fun kv => printable (snd kv)) (Object_entries (headers route)) = true ->
  let applied := accepted_headers header_rejected (Object_entries (headers route)) in
  catch_all header_rejected send_error req w
  = match send_error (status route) applied with
    | None =>
        (Ok (Sent (mkResponse (status route) applied (rendered_body (response route)))), w)
    | Some e => (Throw e, w)
    end.
Proof.
  intros Hget _ _ applied. rewrite catch_all_run, Hget. reflexivity.
Qed.

End CatchAll.

(** ** Atomic writes *)

Lemma append_length (s t : string) :
  String.length (s +:+ t) = (String.length s + String.length t)%nat.
Proof. induction s as [|c s IH]; simpl; [reflexivity | f_equal; exact IH]. Qed.

Lemma append_inv_tail (s1 s2 t : string) : s1 +:+ t = s2 +:+ t -> s1 = s2.
Proof.
  revert s2. induction s1 as [|c s1 IH]; intros [|c2 s2] H; simpl in H.
  - reflexivity.
  - apply (f_equal String.length) in H. simpl in H. rewrite !append_length in H.
    simpl in H. lia.
  - apply (f_equal String.length) in H. simpl in H. rewrite !append_length in H.
    simpl in H. lia.
  - injection H as -> H. f_equal. apply IH. exact H.
Qed.

Lemma pretty_N_go_no_slash (x : N) (s : string) :
  has_slash s = false -> has_slash (pretty_N_go x s) = false.
Proof.
  revert s. induction (N.lt_wf_0 x) as [x _ IH]; intros s Hs.
  destruct (decide (x = 0)%N) as [->|Hx].
  - rewrite pretty_N_go_0. exact Hs.
  - rewrite pretty_N_go_step by lia. apply IH; [apply N.div_lt; lia|].
    cbn [has_slash]. rewrite Hs. unfold pretty_N_char.
    repeat case_match; reflexivity.
Qed.

Lemma pretty_Z_no_slash (x : Z) : has_slash (pretty x) = false.
Proof.
  assert (HN : forall n : N, has_slash (pretty n) = false).
  { intros n. unfold pretty, pretty_N. destruct (decide (n = 0)%N); [reflexivity|].
    apply pretty_N_go_no_slash. reflexivity. }
  destruct x as [|q|q]; [reflexivity | apply HN |].
  change (pretty (Z.neg q)) with ("-" +:+ pretty (N.pos q)).
  cbn [String.append has_slash]. apply HN.
Qed.

Lemma has_slash_append (s t : string) : has_slash (s +:+ t) = has_slash s || has_slash t.
Proof.
  induction s as [|c s IH]; simpl; [reflexivity|]. rewrite IH. apply orb_assoc.
Qed.

(** The temporary name is never the target's. *)
Lemma tmp_name_fresh (path : string) (now : Z) : tmp_name path now <> path.
Proof.
  unfold tmp_name. intros H. apply (f_equal String.length) in H.
  rewrite append_length in H. simpl in H. lia.
Qed.

(** The temporary file is a sibling of the target: its name is the
    target's path followed by a suffix without a path separator. *)
Lemma tmp_name_sibling (path : string) (now : Z) :
  exists suffix, tmp_name path now = path +:+ suffix /\ has_slash suffix = false.
Proof.
  exists ("." +:+ pretty now +:+ ".tmp"). split; [reflexivity|].
  rewrite !has_slash_append, pretty_Z_no_slash. reflexivity.
Qed.

(** Two writes to one target get different temporary names when the
    clock has moved between them. *)
Lemma tmp_name_inj (path : string) (t1 t2 : Z) :
  tmp_name path t1 = tmp_name path t2 -> t1 = t2.
Proof.
  unfold tmp_name. intros H.
  apply String.app_inj in H. apply String.app_inj in H.
  apply append_inv_tail in H. apply pretty_Z_inj in H. exact H.
Qed.

Lemma atomicWriteFile_write_ok (path : string) (data : file_text) (w : World) :
  tmp_name path (clock w) ∉ unwritable (disk w) ->
  atomicWriteFile_write path data w
  = (Ok (tmp_name path (clock w)),
     set_disk (mkDisk (<[tmp_name path (clock w) := data]> (files (disk w)))
                 (unreadable (disk w)) (unwritable (disk w))) w).
Proof.
  intros Ht. unfold atomicWriteFile_write, fs_writeFile. run_monad.
  rewrite bool_decide_eq_false_2 by exact Ht. reflexivity.
Qed.

(** They get the same name when it has not. *)
Lemma tmp_name_same_clock (path : string) (data1 data2 : file_text) (w : World) :
  unwritable (disk w) = ∅ ->
  exists w1 w2,
    atomicWriteFile_write path data1 w = (Ok (tmp_name path (clock w)), w1)
    /\ atomicWriteFile_write path data2 w1 = (Ok (tmp_name path (clock w)), w2).
Proof.
  intros Hw. eexists _, _. split.
  - apply atomicWriteFile_write_ok. rewrite Hw. set_solver.
  - rewrite atomicWriteFile_write_ok; [reflexivity|].
    cbn. rewrite Hw. set_solver.
Qed.

(** On a writable disk the write succeeds, the target holds the data and
    the temporary file is gone. *)
Lemma atomicWriteFile_ok (path : string) (data : file_text) (w : World) :
  tmp_name path (clock w) ∉ unwritable (disk w) ->
  path ∉ unwritable (disk w) ->
  exists w',
    atomicWriteFile path data w = (Ok tt, w')
    /\ files (disk w') !! path = Some data
    /\ files (disk w') !! tmp_name path (clock w) = None
    /\ unreadable (disk w') = unreadable (disk w)
    /\ routes w' = routes w /\ lastRequest w' = lastRequest w.
Proof.
  intros Ht Hp.
  unfold atomicWriteFile, atomicWriteFile_write, atomicWriteFile_rename, fs_writeFile, fs_rename.
  run_monad.
  rewrite bool_decide_eq_false_2 by exact Ht. cbn.
  rewrite lookup_insert_eq.
  rewrite bool_decide_eq_false_2 by exact Hp.
  eexists. split; [reflexivity|]. cbn.
  split; [apply lookup_insert_eq|].
  split; [|repeat split].
  pose proof (tmp_name_fresh path (clock w)) as Hne.
  rewrite lookup_insert_ne by congruence. apply lookup_delete_eq.
Qed.

(** A failed write leaves the target file as it was. *)
Lemma atomicWriteFile_failure (path : string) (data : file_text) (w w' : World) (e : error) :
  atomicWriteFile path data w = (Throw e, w') ->
  files (disk w') !! path = files (disk w) !! path
  /\ routes w' = routes w /\ lastRequest w' = lastRequest w.
Proof.
  pose proof (tmp_name_fresh path (clock w)) as Hne.
  unfold atomicWriteFile, atomicWriteFile_write, atomicWriteFile_rename, fs_writeFile, fs_rename.
  run_monad.
  destruct (bool_decide (tmp_name path (clock w) ∈ _)); cbn.
  - intros [= <- <-]. repeat split.
  - rewrite lookup_insert_eq.
    destruct (bool_decide (path ∈ _)); cbn; [|discriminate].
    intros [= <- <-]. cbn. split; [|split; reflexivity].
    apply lookup_insert_ne. exact Hne.
Qed.

Lemma atomicWriteFile_routes (path : string) (data : file_text) (w : World) :
  routes (snd (atomicWriteFile path data w)) = routes w.
Proof.
  unfold atomicWriteFile, atomicWriteFile_write, atomicWriteFile_rename, fs_writeFile, fs_rename.
  run_monad.
  destruct (bool_decide (tmp_name path (clock w) ∈ _)); cbn; [reflexivity|].
  rewrite lookup_insert_eq.
  destruct (bool_decide (path ∈ _)); reflexivity.
Qed.

Lemma persistRoutes_routes (DATA_FILE : string) (w : World) :
  routes (snd (persistRoutes DATA_FILE w)) = routes w.
Proof. unfold persistRoutes. run_monad. apply atomicWriteFile_routes. Qed.

(** ** Registration *)

Section Register.

Variable StringToNumber : string -> option number.
Variable DATA_FILE : string.

(** The check of line 107 turns the request away before anything is
    touched. *)
Lemma register_rejects (req : Request) (w : World) :
  truthy (own "path" (req_body req)) = false \/ own "response" (req_body req) = None ->
  register StringToNumber DATA_FILE req w = (Ok (Sent bad_request), w).
Proof.
  intros H. unfold register.
  assert (E : negb (truthy (own "path" (req_body req)))
              || negb (bool_decide (is_Some (own "response" (req_body req)))) = true).
  { destruct H as [-> | ->]; [reflexivity|].
    rewrite bool_decide_eq_false_2; [apply orb_true_r|].
    intros [x Hx]. discriminate. }
  rewrite E. reflexivity.
Qed.

(** A body that passes the check with a path that is not a string, or
    with a method that is present and not a string, makes the handler
    throw before the table is touched. *)
Lemma register_ill_typed (req : Request) (w : World) :
  truthy (own "path" (req_body req)) = true ->
  is_Some (own "response" (req_body req)) ->
  (forall s, own "path" (req_body req) <> Some (JStr s))
  \/ (exists v, own "method" (req_body req) = Some v /\ forall s, v <> JStr s) ->
  exists e, register StringToNumber DATA_FILE req w = (Throw (TypeError e), w).
Proof.
  intros Hpath Hresp Hbad. unfold register.
  rewrite Hpath, bool_decide_eq_true_2 by exact Hresp. cbn [negb orb].
  run_monad. unfold normalizePath. rewrite Hpath. cbn [negb].
  destruct (own "path" (req_body req)) as [[| b | n | s | items | props]|] eqn:Hp;
    try (eexists; reflexivity).
  destruct Hbad as [Hbad | (v & Hv & Hbad)]; [destruct (Hbad s eq_refl)|].
  rewrite Hv. unfold default; cbn [from_option id].
  destruct (startsWith_slash s); cbn [negb];
    (destruct v as [| b | n | m | items | props];
       try (eexists; reflexivity); destruct (Hbad m eq_refl)).
Qed.

(** A well-typed body gets past the check and the conversions. *)
Lemma register_accepts (req : Request) (w : World) :
  well_typed_body (req_body req) = true ->
  let body := req_body req in
  let m := canonical_method body in
  let p := canonical_path body in
  let w1 := set_routes (Map_set (route_key m p) (registered_route StringToNumber body)) w in
  register StringToNumber DATA_FILE req w =
    match persistRoutes DATA_FILE w1 with
    | (Ok _, w2) => (Ok (Sent (registered m p)), w2)
    | (Throw e, w2) =>
        (Ok (Sent persist_failed),
         mkWorld (routes w2) (lastRequest w2) (disk w2) (clock w2)
           (("Failed to persist routes:", e) :: console w2))
    end.
Proof.
  intros Hwt body m p w1. subst m p w1.
  unfold well_typed_body in Hwt. fold body in Hwt.
  unfold register, registered_route, canonical_method, canonical_path, route_key.
  fold body.
  destruct (own "path" body) as [[| | | [|c s] | |]|] eqn:Hpath; try discriminate Hwt.
  destruct (own "response" body) as [r|] eqn:Hresp;
    [|rewrite bool_decide_eq_false_2 in Hwt by (intros [x Hx]; discriminate);
      rewrite andb_false_r in Hwt; discriminate Hwt].
  rewrite bool_decide_eq_true_2 by eauto.
  cbn [truthy negb orb].
  rewrite normalizePath_string.
  run_monad.
  destruct (own "method" body) as [[| | | ms | |]|] eqn:Hmeth; try discriminate Hwt;
    unfold default; cbn [from_option id toUpperCase];
    destruct (own "status" body) as [[| b | n | st | |]|] eqn:Hst;
      try (rewrite !andb_false_r in Hwt; discriminate Hwt);
      cbn [from_option id Number];
      destruct (persistRoutes DATA_FILE _) as [[[]|e] w2]; reflexivity.
Qed.

(** The replies of [POST /register], when no other handler runs at its
    awaits.  A registration without a path, or without a response, is
    answered 400 and changes nothing, on disk or in memory.  A well-typed
    registration is answered 500 when the snapshot cannot be written, the
    route table then holding the new definition all the same, and 200
    with the upper-cased method and the normalized path when it can. *)
Theorem register_responses (req : Request) (w : World) :
  let body := req_body req in
  let m := canonical_method body in
  let p := canonical_path body in
  (own "path" body = None \/ own "response" body = None ->
     register StringToNumber DATA_FILE req w
     = (Ok (Sent (json_response 400 (JObj [("error", JStr "path and response required")]))),
        w))
  /\ (well_typed_body body = true ->
      forall e w2,
        persistRoutes DATA_FILE
          (set_routes (Map_set (route_key m p) (registered_route StringToNumber body)) w)
        = (Throw e, w2) ->
        exists w',
          register StringToNumber DATA_FILE req w
          = (Ok (Sent (json_response 500 (JObj [("error", JStr "Failed to persist route")]))),
             w')
          /\ routes w'
             = Map_set (route_key m p) (registered_route StringToNumber body) (routes w))
  /\ (well_typed_body body = true ->
      forall w2,
        persistRoutes DATA_FILE
          (set_routes (Map_set (route_key m p) (registered_route StringToNumber body)) w)
        = (Ok tt, w2) ->
        register StringToNumber DATA_FILE req w
        = (Ok (Sent (json_response 200
                (JObj [("message", JStr "Registered"); ("method", JStr m); ("path", JStr p)]))),
           w2)
        /\ m = upper match own "method" body with Some (JStr s) => s | _ => "GET" end
        /\ normalizePath (own "path" body) = Ok p).
Proof.
  intros body m p. split; [|split].
  - intros H. apply register_rejects.
    destruct H as [H | H]; [left; fold body; rewrite H; reflexivity | right; exact H].
  - intros Hwt e w2 Hp. rewrite (register_accepts req w Hwt). fold body m p.
    rewrite Hp. eexists. split; [reflexivity|]. cbn [routes].
    pose proof (persistRoutes_routes DATA_FILE
      (set_routes (Map_set (route_key m p) (registered_route StringToNumber body)) w)) as Hr.
    rewrite Hp in Hr. exact Hr.
  - intros Hwt w2 Hp. rewrite (register_accepts req w Hwt). fold body m p.
    rewrite Hp. split; [reflexivity|].
    unfold well_typed_body in Hwt. fold body in Hwt.
    subst m p. unfold canonical_method, canonical_path.
    destruct (own "path" body) as [[| | | [|c s] | |]|]; try discriminate Hwt.
    split.
    + destruct (own "method" body) as [[| | | ms | |]|]; try discriminate Hwt; reflexivity.
    + apply normalizePath_string.
Qed.

End Register.

(** ** The route table *)

Section MapFacts.

Context {V : Type}.
Implicit Types (m : list (string * V)) (k : string) (v : V).

Lemma Map_get_set_eq m k v : Map_get k (Map_set k v m) = Some v.
Proof.
  induction m as [|[k' v'] m IH]; cbn.
  - rewrite String.eqb_refl. reflexivity.
  - destruct (String.eqb k k') eqn:E; cbn; rewrite ?String.eqb_refl, ?E; auto.
Qed.

Lemma Map_get_set_ne m k k' v : k' <> k -> Map_get k' (Map_set k v m) = Map_get k' m.
Proof.
  intros Hne. induction m as [|[k0 v0] m IH]; cbn.
  - apply String.eqb_neq in Hne. rewrite Hne. reflexivity.
  - destruct (String.eqb_spec k k0) as [->|Hk]; cbn.
    + apply String.eqb_neq in Hne. rewrite Hne. reflexivity.
    + destruct (String.eqb k' k0); auto.
Qed.

Lemma Map_get_None m k : Map_get k m = None <-> ~ In k (map fst m).
Proof.
  induction m as [|[k' v'] m IH]; cbn; [tauto|].
  destruct (String.eqb_spec k k') as [->|Hk].
  - split; [discriminate | intros H; exfalso; apply H; left; reflexivity].
  - rewrite IH. split; [intros H [E|H']; [congruence | tauto] | tauto].
Qed.

Lemma Map_set_fresh m k v : ~ In k (map fst m) -> Map_set k v m = (m ++ [(k, v)])%list.
Proof.
  induction m as [|[k' v'] m IH]; cbn; intros H; [reflexivity|].
  destruct (String.eqb_spec k k') as [->|Hk]; [tauto|].
  rewrite IH by tauto. reflexivity.
Qed.

(** [set] adds the key at the end, or leaves the keys as they are. *)
Lemma Map_set_keys m k v :
  map fst (Map_set k v m)
  = match Map_get k m with Some _ => map fst m | None => (map fst m ++ [k])%list end.
Proof.
  induction m as [|[k' v'] m IH]; cbn; [reflexivity|].
  destruct (String.eqb_spec k k') as [->|Hk]; cbn; [reflexivity|].
  rewrite IH. destruct (Map_get k m); reflexivity.
Qed.

Lemma Map_set_NoDup m k v : List.NoDup (map fst m) -> List.NoDup (map fst (Map_set k v m)).
Proof.
  intros H. rewrite Map_set_keys. destruct (Map_get k m) eqn:E; [exact H|].
  apply Map_get_None in E.
  apply List.NoDup_app; [exact H | repeat constructor; simpl; tauto |].
  intros x Hx [<-|[]]. tauto.
Qed.

Lemma Map_set_Forall (P : string * V -> Prop) m k v :
  Forall P m -> P (k, v) -> Forall P (Map_set k v m).
Proof.
  intros H Hk. induction H as [|[k' v'] m Hx H IH]; cbn.
  - repeat constructor. exact Hk.
  - destruct (String.eqb k k'); constructor; auto.
Qed.

Lemma Map_get_In m k v : Map_get k m = Some v -> In (k, v) m.
Proof.
  induction m as [|[k' v'] m IH]; cbn; [discriminate|].
  destruct (String.eqb_spec k k') as [->|Hk].
  - intros [= ->]. left. reflexivity.
  - intros H. right. auto.
Qed.

End MapFacts.

Lemma upper_ascii_idem (c : ascii) : upper_ascii (upper_ascii c) = upper_ascii c.
Proof. destruct c as [[] [] [] [] [] [] [] []]; reflexivity. Qed.

Lemma upper_idem (s : string) : upper (upper s) = upper s.
Proof. induction s as [|c s IH]; cbn; [reflexivity|]. rewrite upper_ascii_idem, IH. reflexivity. Qed.

Lemma upper_nonempty (s : string) : s <> "" -> upper s <> "".
Proof. destruct s; [congruence | discriminate]. Qed.

Lemma toUpperCase_Ok (v : json) (m : string) : toUpperCase v = Ok m -> upper m = m.
Proof. destruct v; try discriminate. intros [= <-]. apply upper_idem. Qed.

Lemma normalizePath_Ok (v : jsval) (p : string) :
  normalizePath v = Ok p -> startsWith_slash p = true.
Proof.
  unfold normalizePath. destruct (truthy v); cbn [negb].
  - destruct v as [[| | | s | |]|]; try discriminate.
    destruct (startsWith_slash s) eqn:E; cbn [negb]; intros [= <-]; [exact E | reflexivity].
  - intros [= <-]. reflexivity.
Qed.

Lemma number_or_200_nonzero (n : option number) : number_or_200 n <> Fin 0.
Proof. destruct n as [[[| |]|]|]; discriminate. Qed.

Lemma forEach_invariant {S A} (f : A -> M S unit) (P : S -> Prop) (l : list A) :
  (forall x s, P s -> P (snd (f x s))) ->
  forall s, P s -> P (snd (forEach f l s)).
Proof.
  intros Hf. induction l as [|x l IH]; intros s Hs; cbn; [exact Hs|].
  run_monad. specialize (Hf x s Hs).
  destruct (f x s) as [[[]|e] s']; cbn in *; [apply IH; exact Hf | exact Hf].
Qed.

Section Table.

Variable StringToNumber : string -> option number.
Variable DATA_FILE : string.

(** What a registration does to the table: nothing, or one [set] of a
    definition of the registered shape under its own key. *)
Lemma register_routes (req : Request) (w : World) :
  routes (snd (register StringToNumber DATA_FILE req w)) = routes w
  \/ exists r,
       registered_shape r
       /\ routes (snd (register StringToNumber DATA_FILE req w))
          = Map_set (route_key (method r) (path r)) r (routes w).
Proof.
  unfold register. set (body := req_body req).
  destruct (negb (truthy (own "path" body))
            || negb (bool_decide (is_Some (own "response" body)))) eqn:Hchk;
    [left; reflexivity|].
  apply orb_false_elim in Hchk as [_ Hresp].
  apply negb_false_iff, bool_decide_eq_true_1 in Hresp.
  run_monad.
  destruct (normalizePath (own "path" body)) as [p|e] eqn:Hp; [|left; reflexivity].
  destruct (toUpperCase _) as [m|e] eqn:Hm; [|left; reflexivity].
  destruct (Number _ _) as [n|e] eqn:Hn; [|left; reflexivity].
  right.
  exists (mkRoute m p (JNum (number_or_200 n)) (own "response" body)
            (default (JObj []) (own "headers" body))).
  split.
  - repeat split; cbn.
    + eapply toUpperCase_Ok; eassumption.
    + eapply normalizePath_Ok; eassumption.
    + eexists. split; [reflexivity | apply number_or_200_nonzero].
    + exact Hresp.
  - cbn [method path].
    match goal with |- context [persistRoutes DATA_FILE ?w1] =>
      pose proof (persistRoutes_routes DATA_FILE w1) as Hr;
      destruct (persistRoutes DATA_FILE w1) as [[[]|e] w2]
    end; cbn in *; exact Hr.
Qed.

(** What one snapshot record does to the table when it is loaded. *)
Lemma loadRoutes_item_routes (item : json) (w : World) :
  routes (snd (loadRoutes_item item w)) = routes w
  \/ exists r,
       routes (snd (loadRoutes_item item w))
       = Map_set (route_key (method r) (path r)) r (routes w).
Proof.
  unfold loadRoutes_item. run_monad.
  destruct (prop item "method") as [im|e]; [|left; reflexivity].
  destruct (toUpperCase _) as [m|e]; [|left; reflexivity].
  destruct (prop item "path") as [ip|e]; [|left; reflexivity].
  destruct (normalizePath ip) as [p|e]; [|left; reflexivity].
  destruct (prop item "status") as [ist|e]; [|left; reflexivity].
  destruct (prop item "response") as [ir|e]; [|left; reflexivity].
  destruct (prop item "headers") as [ih|e]; [|left; reflexivity].
  right. eexists (mkRoute m p _ _ _). reflexivity.
Qed.

(** What [loadRoutes] does normalize in a record it stores: the method is
    upper-cased and not empty, the path starts with a slash, the headers
    and the status are truthy; a truthy status of the record is kept
    whatever it is. *)
Lemma loadRoutes_item_shape (item : json) (w w' : World) :
  loadRoutes_item item w = (Ok tt, w') ->
  exists r,
    w' = set_routes (Map_set (route_key (method r) (path r)) r) w
    /\ upper (method r) = method r /\ method r <> ""
    /\ startsWith_slash (path r) = true
    /\ truthy (Some (headers r)) = true
    /\ truthy (Some (status r)) = true
    /\ (forall v, prop item "status" = Ok (Some v) -> truthy (Some v) = true -> status r = v).
Proof.
  unfold loadRoutes_item. run_monad.
  destruct (prop item "method") as [im|e] eqn:Him; [|discriminate].
  destruct (toUpperCase _) as [m|e] eqn:Hm; [|discriminate].
  destruct (prop item "path") as [ip|e]; [|discriminate].
  destruct (normalizePath ip) as [p|e] eqn:Hp; [|discriminate].
  destruct (prop item "status") as [ist|e]; [|discriminate].
  destruct (prop item "response") as [ir|e]; [|discriminate].
  destruct (prop item "headers") as [ih|e]; [|discriminate].
  intros [= <-]. eexists (mkRoute m p _ _ _). split; [reflexivity|]. cbn [method path headers status].
  assert (Hor : forall (a : jsval) (d : json), truthy (Some d) = true -> truthy (Some (js_or a d)) = true).
  { intros [a|] d Hd; cbn [js_or]; [|exact Hd].
    destruct (truthy (Some a)) eqn:Ha; [exact Ha | exact Hd]. }
  split; [eapply toUpperCase_Ok; exact Hm|].
  split.
  { assert (Ht : truthy (Some (js_or im (JStr "GET"))) = true) by (apply Hor; reflexivity).
    destruct (js_or im (JStr "GET")) as [| | | [|c s] | |]; try discriminate.
    injection Hm as <-. discriminate. }
  split; [eapply normalizePath_Ok; exact Hp|].
  split; [apply Hor; reflexivity|].
  split; [apply Hor; reflexivity|].
  intros v [= ->] Hv. cbn [js_or]. rewrite Hv. reflexivity.
Qed.

Lemma table_wf_set (table : list (string * Route)) (r : Route) :
  table_wf table -> table_wf (Map_set (route_key (method r) (path r)) r table).
Proof.
  intros [Hnd Hk]. split.
  - apply Map_set_NoDup. exact Hnd.
  - apply Map_set_Forall; [exact Hk | reflexivity].
Qed.

Lemma loadRoutes_wf (w : World) :
  table_wf (routes w) -> table_wf (routes (snd (loadRoutes DATA_FILE w))).
Proof.
  intros Hwf. unfold loadRoutes. run_monad.
  destruct (bool_decide _); cbn [negb]; [|exact Hwf].
  destruct (fs_readFile DATA_FILE w) as [[raw|e] w1] eqn:Hread.
  2:{ unfold fs_readFile in Hread. destruct (files (disk w) !! DATA_FILE);
      [destruct (bool_decide _)|]; injection Hread as _ <-; exact Hwf. }
  assert (w1 = w) as ->.
  { unfold fs_readFile in Hread. destruct (files (disk w) !! DATA_FILE);
      [destruct (bool_decide _)|]; injection Hread as _ <-; reflexivity. }
  destruct (JSON_parse raw) as [[| | | | items |]|e]; try exact Hwf.
  match goal with |- context [forEach ?f items w] =>
    pose proof (forEach_invariant f (fun s => s = w) items (fun x s Hs => Hs) w eq_refl)
      as Hchk;
    destruct (forEach f items w) as [[[]|e] w2]
  end; cbn in Hchk; subst w2; [|exact Hwf].
  pose proof (forEach_invariant loadRoutes_item (fun s => table_wf (routes s)) items) as Hload.
  assert (Hstep : forall x s, table_wf (routes s) -> table_wf (routes (snd (loadRoutes_item x s)))).
  { intros x s Hs. destruct (loadRoutes_item_routes x s) as [-> | [r ->]];
      [exact Hs | apply table_wf_set; exact Hs]. }
  specialize (Hload Hstep w Hwf).
  destruct (forEach loadRoutes_item items w) as [[[]|e] w3]; exact Hload.
Qed.

(** The table of a running process is well keyed. *)
Lemma reachable_wf (w : World) :
  reachable StringToNumber DATA_FILE w -> table_wf (routes w).
Proof.
  induction 1 as [w Hw | w _ IH | w req _ IH | w w' _ IH Hr].
  - rewrite Hw. split; constructor.
  - apply loadRoutes_wf. exact IH.
  - destruct (register_routes req w) as [-> | (r & _ & ->)];
      [exact IH | apply table_wf_set; exact IH].
  - rewrite Hr. exact IH.
Qed.

End Table.

(** ** One definition per key *)

Lemma definitions_for_absent (m p : string) (table : list (string * Route)) :
  keyed table -> ~ In (route_key m p) (map fst table) -> definitions_for m p table = 0%nat.
Proof.
  unfold definitions_for. induction 1 as [|[k r] table Hk _ IH]; cbn; intros Hn; [reflexivity|].
  destruct (String.eqb_spec (method r) m) as [<-|]; cbn [andb]; [|apply IH; tauto].
  destruct (String.eqb_spec (path r) p) as [<-|]; [|apply IH; tauto].
  cbn in Hk. exfalso. apply Hn. left. exact Hk.
Qed.

Lemma definitions_for_le_1 (m p : string) (table : list (string * Route)) :
  table_wf table -> (definitions_for m p table <= 1)%nat.
Proof.
  intros [Hnd Hk]. induction Hk as [|[k r] table Hkr Hk IH]; cbn; [lia|].
  inversion Hnd as [|? ? Hnotin Hnd']; subst.
  unfold definitions_for in *. cbn.
  destruct (String.eqb_spec (method r) m) as [<-|]; cbn [andb]; [|apply IH; exact Hnd'].
  destruct (String.eqb_spec (path r) p) as [<-|]; [|apply IH; exact Hnd'].
  cbn in Hkr. subst k. cbn.
  pose proof (definitions_for_absent (method r) (path r) table Hk Hnotin) as H0.
  unfold definitions_for in H0. rewrite H0. lia.
Qed.

Lemma definitions_for_present (k : string) (r : Route) (table : list (string * Route)) :
  In (k, r) table -> (1 <= definitions_for (method r) (path r) table)%nat.
Proof.
  unfold definitions_for. intros H.
  assert (Hin : In (k, r) (List.filter
            (fun kv => String.eqb (method (snd kv)) (method r)
                       && String.eqb (path (snd kv)) (path r)) table)).
  { apply filter_In. split; [exact H|]. cbn. rewrite !String.eqb_refl. reflexivity. }
  destruct (List.filter _ table); [destruct Hin | cbn; lia].
Qed.

(** [GET /__routes] lists one entry per stored definition. *)
Lemma list_routes_run (w : World) :
  exists out,
    list_routes w = (Ok (Sent (json_response 200 (JArr out))), w)
    /\ forall m p, listed_for m p out = definitions_for m p (routes w).
Proof.
  unfold list_routes. run_monad. eexists. split; [reflexivity|].
  intros m p. unfold listed_for, definitions_for.
  induction (routes w) as [|[k r] table IH]; [reflexivity|].
  cbn [map List.filter snd]. cbn [own String.eqb Ascii.eqb Bool.eqb].
  destruct (String.eqb (method r) m && String.eqb (path r) p); cbn [length]; rewrite IH;
    reflexivity.
Qed.

Section OnePerKey.

Variable StringToNumber : string -> option number.
Variable DATA_FILE : string.

Lemma register_accepts_routes (req : Request) (w : World) :
  well_typed_body (req_body req) = true ->
  routes (snd (register StringToNumber DATA_FILE req w))
  = Map_set (route_key (canonical_method (req_body req)) (canonical_path (req_body req)))
      (registered_route StringToNumber (req_body req)) (routes w).
Proof.
  intros Hwt. rewrite (register_accepts StringToNumber DATA_FILE req w Hwt). cbv zeta.
  match goal with |- context [persistRoutes DATA_FILE ?w1] =>
    pose proof (persistRoutes_routes DATA_FILE w1) as Hr;
    destruct (persistRoutes DATA_FILE w1) as [[[]|e] w2]
  end; cbn in *; exact Hr.
Qed.

(** C8. The route table of a running process holds at most one
    definition for every (method, path) pair.  When two well-typed
    registrations name the same upper-cased method and normalized path,
    the table afterwards holds the second definition under that key, and
    it alone: [GET /__routes] lists exactly one entry for the pair. *)
Theorem one_definition_per_key :
  (forall w m p,
     reachable StringToNumber DATA_FILE w -> (definitions_for m p (routes w) <= 1)%nat)
  /\ (forall w req1 req2 later,
      reachable StringToNumber DATA_FILE w ->
      well_typed_body (req_body req1) = true ->
      well_typed_body (req_body req2) = true ->
      canonical_method (req_body req1) = canonical_method (req_body req2) ->
      canonical_path (req_body req1) = canonical_path (req_body req2) ->
      let m := canonical_method (req_body req2) in
      let p := canonical_path (req_body req2) in
      let w1 := snd (register StringToNumber DATA_FILE req1 w) in
      let w2 := snd (register StringToNumber DATA_FILE req2 (set_clock later w1)) in
      Map_get (route_key m p) (routes w2)
      = Some (registered_route StringToNumber (req_body req2))
      /\ map fst (routes w2) = map fst (routes w1)
      /\ definitions_for m p (routes w2) = 1%nat
      /\ exists out,
           list_routes w2 = (Ok (Sent (json_response 200 (JArr out))), w2)
           /\ listed_for m p out = 1%nat).
Proof.
  split.
  - intros w m p Hr. apply definitions_for_le_1. eapply reachable_wf. exact Hr.
  - intros w req1 req2 later Hr Hwt1 Hwt2 Hm Hp m p w1 w2.
    assert (Hr2 : reachable StringToNumber DATA_FILE w2).
    { apply reach_register. eapply reach_other; [apply reach_register; exact Hr|].
      reflexivity. }
    assert (Hget : Map_get (route_key m p) (routes w2)
                   = Some (registered_route StringToNumber (req_body req2))).
    { subst w2. rewrite (register_accepts_routes _ _ Hwt2). apply Map_get_set_eq. }
    assert (Hone : definitions_for m p (routes w2) = 1%nat).
    { apply Nat.le_antisymm.
      - apply definitions_for_le_1. eapply reachable_wf. exact Hr2.
      - apply Map_get_In in Hget.
        apply definitions_for_present in Hget. exact Hget. }
    split; [exact Hget|]. split; [|split; [exact Hone|]].
    { subst w2. rewrite (register_accepts_routes _ _ Hwt2). cbn [routes set_clock].
      rewrite Map_set_keys. fold m p.
      assert (Hget1 : Map_get (route_key m p) (routes w1)
                      = Some (registered_route StringToNumber (req_body req1))).
      { subst w1 m p. rewrite (register_accepts_routes _ _ Hwt1), <- Hm, <- Hp.
        apply Map_get_set_eq. }
      rewrite Hget1. reflexivity. }
    destruct (list_routes_run w2) as (out & Hout & Hcount).
    exists out. split; [exact Hout|]. rewrite Hcount. exact Hone.
Qed.

End OnePerKey.

(** ** Persisting and reloading *)

Lemma persistRoutes_written (DATA_FILE : string) (w w2 : World) :
  persistRoutes DATA_FILE w = (Ok tt, w2) ->
  files (disk w2) !! DATA_FILE
  = Some (Serialized
            (JArr (map (fun kv => stringified (snapshot_record (snd kv))) (routes w))))
  /\ unreadable (disk w2) = unreadable (disk w).
Proof.
  unfold persistRoutes, atomicWriteFile, atomicWriteFile_write, atomicWriteFile_rename,
    fs_writeFile, fs_rename, JSON_stringify.
  run_monad.
  destruct (bool_decide (tmp_name DATA_FILE (clock w) ∈ _)); cbn; [discriminate|].
  rewrite lookup_insert_eq.
  destruct (bool_decide (DATA_FILE ∈ _)); cbn; [discriminate|].
  intros [= <-]. cbn [disk set_disk files unreadable stringified].
  rewrite map_map. split; [apply lookup_insert_eq | reflexivity].
Qed.

Lemma js_or_idem (h d : json) : js_or (Some (js_or (Some h) d)) d = js_or (Some h) d.
Proof.
  destruct h as [| [] | [[| |]|] | [|] | |]; cbn; try reflexivity;
    destruct d as [| [] | [[| |]|] | [|] | |]; reflexivity.
Qed.

Lemma toUpperCase_js_or (s : string) :
  toUpperCase (js_or (Some (JStr s)) (JStr "GET"))
  = Ok (upper (if String.eqb s "" then "GET" else s)).
Proof. destruct s; reflexivity. Qed.

Lemma loadRoutes_check_snapshot (r : Route) :
  loadRoutes_check (stringified (snapshot_record r)) = Ok tt.
Proof.
  unfold loadRoutes_check, snapshot_record.
  destruct (response r);
    cbn [stringified map app fst snd prop own String.eqb Ascii.eqb Bool.eqb rbind];
    rewrite toUpperCase_js_or; cbn [rbind]; rewrite normalizePath_string; reflexivity.
Qed.

Lemma loadRoutes_item_snapshot (r : Route) (w : World) :
  loadRoutes_item (stringified (snapshot_record r)) w
  = (Ok tt,
     set_routes (Map_set (route_key (method (reload_of r)) (path (reload_of r))) (reload_of r)) w).
Proof.
  unfold loadRoutes_item, snapshot_record, reload_of, route_key. run_monad.
  destruct (response r);
    cbn [stringified map app fst snd prop own String.eqb Ascii.eqb Bool.eqb];
    rewrite toUpperCase_js_or, normalizePath_string; reflexivity.
Qed.

Lemma forEach_check_snapshot (rs : list Route) (w : World) :
  forEach (fun item => lift (loadRoutes_check item))
    (map (fun r => stringified (snapshot_record r)) rs) w
  = (Ok tt, w).
Proof.
  induction rs as [|r rs IH]; cbn [map forEach]; [reflexivity|].
  run_monad. rewrite loadRoutes_check_snapshot. exact IH.
Qed.

Lemma forEach_load_snapshot (rs : list Route) (w : World) :
  forEach loadRoutes_item (map (fun r => stringified (snapshot_record r)) rs) w
  = (Ok tt,
     set_routes (fun table =>
       fold_left (fun acc r =>
         Map_set (route_key (method (reload_of r)) (path (reload_of r))) (reload_of r) acc)
         rs table) w).
Proof.
  revert w. induction rs as [|r rs IH]; intros w; cbn [map forEach fold_left].
  - destruct w; reflexivity.
  - run_monad. rewrite loadRoutes_item_snapshot. rewrite IH. reflexivity.
Qed.

(** Loading a readable snapshot that [persistRoutes] wrote. *)
Lemma loadRoutes_snapshot (DATA_FILE : string) (rs : list Route) (w : World) :
  files (disk w) !! DATA_FILE
  = Some (Serialized (JArr (map (fun r => stringified (snapshot_record r)) rs))) ->
  DATA_FILE ∉ unreadable (disk w) ->
  loadRoutes DATA_FILE w
  = (Ok tt,
     set_routes (fun table =>
       fold_left (fun acc r =>
         Map_set (route_key (method (reload_of r)) (path (reload_of r))) (reload_of r) acc)
         rs table) w).
Proof.
  intros Hf Hr. unfold loadRoutes. run_monad.
  rewrite Hf. rewrite bool_decide_eq_true_2 by eauto. cbn [negb].
  unfold fs_readFile. rewrite Hf. rewrite bool_decide_eq_false_2 by exact Hr.
  cbn [JSON_parse].
  pose proof (forEach_check_snapshot rs w) as Hc. unfold lift in Hc. rewrite Hc.
  rewrite forEach_load_snapshot. reflexivity.
Qed.

(** Induction on JSON values, through arrays and objects. *)
Lemma json_nested_ind (P : json -> Prop) :
  P JNull -> (forall b, P (JBool b)) -> (forall n, P (JNum n)) -> (forall s, P (JStr s)) ->
  (forall items, Forall P items -> P (JArr items)) ->
  (forall props, Forall (fun kv => P (snd kv)) props -> P (JObj props)) ->
  forall v, P v.
Proof.
  intros Hnull Hbool Hnum Hstr Harr Hobj.
  fix IH 1. intros [| b | n | s | items | props].
  - exact Hnull.
  - apply Hbool.
  - apply Hnum.
  - apply Hstr.
  - apply Harr. induction items as [|x items IHitems]; constructor; [apply IH | exact IHitems].
  - apply Hobj. induction props as [|[k x] props IHprops]; constructor;
      [apply IH | exact IHprops].
Qed.

(** [JSON.stringify] writes a value without infinite numbers as it is. *)
Lemma stringified_finite (v : json) : finite v = true -> stringified v = v.
Proof.
  induction v as [| b | [z|neg] | s | items IH | props IH] using json_nested_ind;
    cbn [finite stringified]; intros Hf; try reflexivity; try discriminate.
  - f_equal. induction IH as [|x items Hx _ IHitems]; [reflexivity|].
    cbn [forallb] in Hf. apply andb_prop in Hf as [Hfx Hfi].
    cbn [map]. rewrite (Hx Hfx), (IHitems Hfi). reflexivity.
  - f_equal. induction IH as [|[k x] props Hx _ IHprops]; [reflexivity|].
    cbn [forallb snd] in Hf. apply andb_prop in Hf as [Hfx Hfi].
    cbn [map fst snd] in *. rewrite (Hx Hfx), (IHprops Hfi). reflexivity.
Qed.

(** A definition of the registered shape with a non-empty method and
    without infinite numbers comes back as it was, but for falsy headers. *)
Lemma reload_of_registered (r : Route) :
  registered_shape r -> method r <> "" -> finite_route r = true -> reload_of r = reloaded r.
Proof.
  intros (Hm & Hp & (n & Hn & Hn0) & _) Hne Hfin. unfold reload_of, reloaded.
  unfold finite_route in Hfin.
  apply andb_prop in Hfin as [Hfin Hfh]. apply andb_prop in Hfin as [Hfs Hfr].
  apply String.eqb_neq in Hne. rewrite Hne, Hm, Hp.
  rewrite (stringified_finite _ Hfs).
  assert (Hst : js_or (Some (status r)) (JNum 200) = status r).
  { rewrite Hn. destruct n as [[| |]|]; [congruence | reflexivity..]. }
  assert (Hresp : stringified <$> response r = response r).
  { destruct (response r) as [v|]; [|reflexivity]. cbn in *.
    rewrite (stringified_finite _ Hfr). reflexivity. }
  assert (Hhd : js_or (Some (stringified (js_or (Some (headers r)) (JObj [])))) (JObj [])
                = js_or (Some (headers r)) (JObj [])).
  { rewrite stringified_finite; [apply js_or_idem|].
    cbn [js_or]. destruct (truthy (Some (headers r))); [exact Hfh | reflexivity]. }
  rewrite Hst, Hresp, Hhd. reflexivity.
Qed.

(** Setting, one after the other, entries whose keys are new and distinct
    appends them in order. *)
Lemma fold_Map_set_fresh {V} (g : V -> string * V) (rs : list V) (acc : list (string * V)) :
  List.NoDup (map fst acc ++ map (fun r => fst (g r)) rs) ->
  fold_left (fun acc r => Map_set (fst (g r)) (snd (g r)) acc) rs acc
  = (acc ++ map g rs)%list.
Proof.
  revert acc. induction rs as [|r rs IH]; intros acc Hnd; cbn [fold_left map].
  - rewrite app_nil_r. reflexivity.
  - cbn [map] in Hnd.
    rewrite Map_set_fresh.
    2:{ apply NoDup_remove_2 in Hnd. intros Hin. apply Hnd. apply in_or_app. left. exact Hin. }
    rewrite IH.
    + rewrite <- app_assoc. cbn. destruct (g r); reflexivity.
    + rewrite map_app. cbn [map fst]. rewrite <- app_assoc. exact Hnd.
Qed.

Section RoundTrip.

Variable StringToNumber : string -> option number.
Variable DATA_FILE : string.

(** Every definition in the table of a process that started empty and
    served registrations has the registered shape. *)
Lemma serve_registrations_shape (reqs : list (Z * Request)) (w : World) :
  table_wf (routes w) ->
  Forall (fun kv => registered_shape (snd kv)) (routes w) ->
  let w1 := serve_registrations StringToNumber DATA_FILE reqs w in
  table_wf (routes w1) /\ Forall (fun kv => registered_shape (snd kv)) (routes w1).
Proof.
  revert w. induction reqs as [|[now req] reqs IH]; intros w Hwf Hsh; cbn; [tauto|].
  apply IH.
  - destruct (register_routes StringToNumber DATA_FILE req (set_clock now w))
      as [-> | (r & _ & ->)]; [exact Hwf | apply table_wf_set; exact Hwf].
  - destruct (register_routes StringToNumber DATA_FILE req (set_clock now w))
      as [-> | (r & Hr & ->)]; [exact Hsh|].
    apply Map_set_Forall; [exact Hsh | exact Hr].
Qed.

(** Reloading the snapshot of a well-keyed table of registered
    definitions with non-empty methods and without infinite numbers. *)
Lemma reload_table (table : list (string * Route)) :
  table_wf table ->
  Forall (fun kv => registered_shape (snd kv)) table ->
  Forall (fun kv => method (snd kv) <> "") table ->
  Forall (fun kv => finite_route (snd kv) = true) table ->
  fold_left (fun acc r =>
    Map_set (route_key (method (reload_of r)) (path (reload_of r))) (reload_of r) acc)
    (map snd table) []
  = map (fun kv => (fst kv, reloaded (snd kv))) table.
Proof.
  intros [Hnd Hk] Hsh Hne Hfin.
  set (g := fun r : Route =>
              (route_key (method (reload_of r)) (path (reload_of r)), reload_of r)).
  assert (Hg : forall kv, In kv table -> g (snd kv) = (fst kv, reloaded (snd kv))).
  { intros kv Hin. unfold g.
    unfold keyed in Hk. rewrite List.Forall_forall in Hk, Hsh, Hne, Hfin.
    rewrite (reload_of_registered (snd kv) (Hsh kv Hin) (Hne kv Hin) (Hfin kv Hin)).
    cbn [method path reloaded]. rewrite <- (Hk kv Hin). reflexivity. }
  assert (Hkeys : map (fun r => fst (g r)) (map snd table) = map fst table).
  { rewrite map_map. apply map_ext_in. intros kv Hin. rewrite (Hg kv Hin). reflexivity. }
  transitivity (([] : list (string * Route)) ++ map g (map snd table))%list.
  - apply (fold_Map_set_fresh g). cbn [map app]. rewrite Hkeys. exact Hnd.
  - cbn [app]. rewrite map_map. apply map_ext_in. exact Hg.
Qed.

(** C4 (amended).  After any sequence of registrations served by a
    process that started empty, if every stored method is non-empty and
    no stored value holds an infinite number, writing the snapshot and
    loading it into a fresh process gives a table with the same keys in
    the same order and, under each key, the same method, path, status and
    response; the headers are the same too, except that headers stored as
    [null], [false], [0] or [""] come back as the empty object. *)
Theorem snapshot_roundtrip (reqs : list (Z * Request)) (d0 : Disk) (t0 restart : Z)
    (w2 : World) :
  let w1 := serve_registrations StringToNumber DATA_FILE reqs (startup d0 t0) in
  Forall (fun kv => method (snd kv) <> "") (routes w1) ->
  Forall (fun kv => finite_route (snd kv) = true) (routes w1) ->
  persistRoutes DATA_FILE w1 = (Ok tt, w2) ->
  DATA_FILE ∉ unreadable (disk w2) ->
  exists w3,
    loadRoutes DATA_FILE (startup (disk w2) restart) = (Ok tt, w3)
    /\ routes w3 = map (fun kv => (fst kv, reloaded (snd kv))) (routes w1)
    /\ (Forall (fun kv => truthy (Some (headers (snd kv))) = true) (routes w1) ->
        routes w3 = routes w1).
Proof.
  intros w1 Hne Hfin Hper Hread.
  destruct (serve_registrations_shape reqs (startup d0 t0)) as [Hwf Hsh].
  { split; constructor. }
  { constructor. }
  fold w1 in Hwf, Hsh.
  destruct (persistRoutes_written _ _ _ Hper) as [Hfile _].
  rewrite <- (map_map snd (fun r => stringified (snapshot_record r))) in Hfile.
  eexists. split; [|split].
  - apply (loadRoutes_snapshot DATA_FILE (map snd (routes w1)) (startup (disk w2) restart));
      [exact Hfile | exact Hread].
  - cbn [routes set_routes startup]. apply reload_table; assumption.
  - intros Htruthy. cbn [routes set_routes startup].
    rewrite reload_table by assumption.
    rewrite <- (map_id (routes w1)) at 2. apply map_ext_in.
    intros [k r] Hin. rewrite List.Forall_forall in Htruthy. specialize (Htruthy _ Hin).
    cbn [fst snd] in *. unfold reloaded, js_or. rewrite Htruthy. destruct r; reflexivity.
Qed.

End RoundTrip.

(** * The properties on concrete runs *)

(** ** The rate limiter *)

(** C1. A client without a recorded timestamp is to be admitted.  The
    limiter compares such a client's request with timestamp 0 instead, so
    it rejects a first request whenever the clock, in seconds since the
    epoch, is below the window: with the default window of 10 s at clock
    0, and with a window of 2000000000 s at 1793000000 s.  The record
    stays empty. *)
Theorem rateLimiter_rejects_first_request :
  let req := mkRequest (Some "203.0.113.7") None "GET" "/greet" [] in
  let w := startup empty_disk 0 in
  let w' := startup empty_disk 1793000000000 in
  lastRequest w !! client_ip req = None
  /\ rateLimiter 10 [] req w = (Ok (Sent (too_many_requests 10)), w)
  /\ lastRequest w' !! client_ip req = None
  /\ rateLimiter 2000000000 [] req w' = (Ok (Sent (too_many_requests 207000000)), w').
Proof.
  cbv zeta. split; [reflexivity|]. split; [|split; [reflexivity|]].
  - rewrite rateLimiter_first_early; [reflexivity | intros [] | reflexivity | reflexivity].
  - rewrite rateLimiter_first_early; [reflexivity | intros [] | reflexivity | reflexivity].
Qed.

(** Away from the epoch the limiter is the cooldown it is meant to be:
    with a window of 10 s, a first request is admitted, one 5 s later is
    rejected with 5 s to wait, one 10 s later is admitted. *)
Example rateLimiter_cooldown :
  let req := mkRequest (Some "203.0.113.7") None "GET" "/greet" [] in
  let w0 := startup empty_disk 1793000000000 in
  let admitted := set_lastRequest (insert "203.0.113.7" 1793000000) in
  rateLimiter 10 [] req w0 = (Ok Next, admitted w0)
  /\ rateLimiter 10 [] req (set_clock 1793000005000 (admitted w0))
     = (Ok (Sent (too_many_requests 5)), set_clock 1793000005000 (admitted w0))
  /\ fst (rateLimiter 10 [] req (set_clock 1793000010000 (admitted w0))) = Ok Next.
Proof. cbv zeta. repeat split; vm_compute; reflexivity. Qed.

Lemma rateLimiter_exempt_frame_witness :
  let req := mkRequest (Some "203.0.113.7") None "GET" "/health" [] in
  let w := set_lastRequest (insert "203.0.113.7" 1793000000) (startup empty_disk 1793000004000) in
  rateLimiter 10 ["/health"] req w = (Ok Next, w)
  /\ lastRequest (snd (rateLimiter 10 ["/health"] req w)) !! client_ip req
     = lastRequest w !! client_ip req
  /\ forall (later : Z) (req' : Request),
       rateLimiter 10 ["/health"] req' (set_clock later (snd (rateLimiter 10 ["/health"] req w)))
       = rateLimiter 10 ["/health"] req' (set_clock later w).
Proof.
  apply (rateLimiter_exempt_frame 10 ["/health"]
           (mkRequest (Some "203.0.113.7") None "GET" "/health" [])).
  simpl. left. reflexivity.
Defined.

(** ** Atomic writes *)

(** C2. The temporary name is built from the target path and the clock in
    milliseconds, nothing else: two writes that start within the same
    millisecond get the same name.  With the two writes interleaved at
    their [await]s, both write that one file, the first rename moves it
    away and the second rename fails for lack of it. *)
Theorem atomicWriteFile_same_millisecond :
  let w0 := startup empty_disk 1793000000000 in
  let first := JSON_stringify (JArr [JStr "first"]) in
  let second := JSON_stringify (JArr [JStr "second"]) in
  exists tmp1 tmp2 w1 w2 w3,
    atomicWriteFile_write "./data.json" first w0 = (Ok tmp1, w1)
    /\ atomicWriteFile_write "./data.json" second w1 = (Ok tmp2, w2)
    /\ tmp1 = "./data.json.1793000000000.tmp"
    /\ tmp2 = tmp1
    /\ atomicWriteFile_rename tmp1 "./data.json" w2 = (Ok tt, w3)
    /\ atomicWriteFile_rename tmp2 "./data.json" w3 = (Throw (ENOENT tmp2), w3).
Proof.
  cbv zeta. eexists _, _, _, _, _.
  split; [vm_compute; reflexivity|].
  split; [vm_compute; reflexivity|].
  split; [reflexivity|]. split; [reflexivity|].
  split; [vm_compute; reflexivity|].
  vm_compute; reflexivity.
Qed.

(** ** Loading *)

(** C5. [loadRoutes] keeps a record's status whenever it is truthy: the
    snapshot [[{"path":"/a","method":"get","status":"abc","response":"hi"}]]
    is loaded with status ["abc"], while the same fields sent to
    [POST /register] are stored with status 200. *)
Theorem loadRoutes_keeps_non_numeric_status :
  let fields := [("path", JStr "/a"); ("method", JStr "get"); ("status", JStr "abc");
                 ("response", JStr "hi")] in
  let d := mkDisk {["./data.json" := Serialized (JArr [JObj fields])]} ∅ ∅ in
  let req := mkRequest (Some "203.0.113.7") None "POST" "/register" fields in
  loadRoutes "./data.json" (startup d 0)
  = (Ok tt,
     set_routes (fun _ => [("GET /a", mkRoute "GET" "/a" (JStr "abc") (Some (JStr "hi")) (JObj []))])
       (startup d 0))
  /\ routes (snd (register example_StringToNumber "./data.json" req (startup empty_disk 0)))
     = [("GET /a", mkRoute "GET" "/a" (JNum 200) (Some (JStr "hi")) (JObj []))].
Proof. cbv zeta. split; vm_compute; reflexivity. Qed.

Lemma loadRoutes_fail_open_witness :
  let corrupt := mkDisk {["./data.json" := Garbled "{oops"]} ∅ ∅ in
  (forall w, fst (loadRoutes "./data.json" w) = Ok tt)
  /\ loadRoutes "./data.json" (startup empty_disk 0) = (Ok tt, startup empty_disk 0)
  /\ exists e w',
       loadRoutes "./data.json" (startup corrupt 0) = (Ok tt, w')
       /\ routes w' = []
       /\ console w' = [("Failed to load routes:", e)].
Proof.
  cbv zeta.
  pose proof (loadRoutes_fail_open "./data.json" empty_disk 0) as (H1 & H2 & _).
  pose proof (loadRoutes_fail_open "./data.json"
                (mkDisk {["./data.json" := Garbled "{oops"]} ∅ ∅) 0) as (_ & _ & H3).
  split; [exact H1|]. split.
  - apply H2. reflexivity.
  - apply (H3 (Garbled "{oops")); [reflexivity | right; eexists; reflexivity].
Defined.

(** ** Registration *)

Lemma register_responses_witness :
  let no_path := mkRequest None None "POST" "/register" [("response", JStr "hi")] in
  let greet := mkRequest None None "POST" "/register"
                 [("path", JStr "greet"); ("method", JStr "post"); ("response", JStr "hi")] in
  let read_only := mkDisk ∅ ∅ {["./data.json"]} in
  register example_StringToNumber "./data.json" no_path (startup empty_disk 0)
  = (Ok (Sent bad_request), startup empty_disk 0)
  /\ (exists w',
        register example_StringToNumber "./data.json" greet (startup read_only 0)
        = (Ok (Sent persist_failed), w')
        /\ routes w'
           = [("POST /greet", mkRoute "POST" "/greet" (JNum 200) (Some (JStr "hi")) (JObj []))])
  /\ exists w2,
       register example_StringToNumber "./data.json" greet (startup empty_disk 0)
       = (Ok (Sent (registered "POST" "/greet")), w2).
Proof.
  cbv zeta. split; [|split].
  - apply (proj1 (register_responses example_StringToNumber "./data.json"
             (mkRequest None None "POST" "/register" [("response", JStr "hi")])
             (startup empty_disk 0))).
    left. reflexivity.
  - eapply (proj1 (proj2 (register_responses example_StringToNumber "./data.json"
             (mkRequest None None "POST" "/register"
                [("path", JStr "greet"); ("method", JStr "post"); ("response", JStr "hi")])
             (startup (mkDisk ∅ ∅ {["./data.json"]}) 0)))).
    + reflexivity.
    + vm_compute. reflexivity.
  - eexists.
    eapply (proj2 (proj2 (register_responses example_StringToNumber "./data.json"
             (mkRequest None None "POST" "/register"
                [("path", JStr "greet"); ("method", JStr "post"); ("response", JStr "hi")])
             (startup empty_disk 0)))).
    + reflexivity.
    + vm_compute. reflexivity.
Defined.

(** C3.  A registration whose body passes the check of line 107 and is
    malformed all the same is not answered 400, nor 500, nor 200.  With
    [{"path": 7, "response": "hi"}] line 111 throws, [p.startsWith] is
    not a function; with [{"path": "/a", "method": null, "response":
    "hi"}] line 112 throws, [null] has no [toUpperCase].  The handler
    ends in the exception, without a reply; nothing has changed in
    memory or on disk. *)
Theorem register_malformed_body_throws :
  let w := startup empty_disk 0 in
  let numeric_path := mkRequest None None "POST" "/register"
                        [("path", JNum 7); ("response", JStr "hi")] in
  let null_method := mkRequest None None "POST" "/register"
                       [("path", JStr "/a"); ("method", JNull); ("response", JStr "hi")] in
  register example_StringToNumber "./data.json" numeric_path w
  = (Throw (TypeError "p.startsWith is not a function"), w)
  /\ register example_StringToNumber "./data.json" null_method w
     = (Throw (TypeError "toUpperCase is not a function"), w)
  /\ (forall req, req = numeric_path \/ req = null_method ->
      forall res, fst (register example_StringToNumber "./data.json" req w) <> Ok (Sent res)).
Proof.
  cbv zeta. split; [reflexivity|]. split; [reflexivity|].
  intros req [-> | ->] res; discriminate.
Qed.

(** [String(n)] at and around 1e21. *)
Example number_ToString_exponent :
  number_ToString 999999999999999999999 = "999999999999999999999"
  /\ number_ToString 1000000000000000000000 = "1e+21"
  /\ number_ToString 1500000000000000000000 = "1.5e+21"
  /\ number_ToString (-12000000000000000000000) = "-1.2e+22"
  /\ number_ToString 0 = "0"
  /\ number_ToString (-7) = "-7".
Proof. repeat split; vm_compute; reflexivity. Qed.

(** A status that is an array goes through [Number]: [[404]] converts to
    the string ["404"] and the route is stored with status 404. *)
Example register_array_status :
  let req := mkRequest None None "POST" "/register"
               [("path", JStr "/a"); ("response", JStr "hi");
                ("status", JArr [JNum 404])] in
  let w' := snd (register example_StringToNumber "./data.json" req (startup empty_disk 0)) in
  fst (register example_StringToNumber "./data.json" req (startup empty_disk 0))
  = Ok (Sent (registered "GET" "/a"))
  /\ routes w' = [("GET /a", mkRoute "GET" "/a" (JNum 404) (Some (JStr "hi")) (JObj []))].
Proof. cbv zeta. split; vm_compute; reflexivity. Qed.

(** A registration and the requests that follow it: [POST /register] of
    [{"path":"/greet","response":{"hi":"there"},"status":201}] is answered
    200 with method [GET] and path [/greet]; [GET /greet] is then answered
    201 with [{"hi":"there"}], and [GET /unregistered] 404. *)
Example greet_scenario :
  let post := mkRequest None None "POST" "/register"
                [("path", JStr "/greet"); ("response", JObj [("hi", JStr "there")]);
                 ("status", JNum 201)] in
  let w1 := snd (register example_StringToNumber "./data.json" post (startup empty_disk 0)) in
  fst (register example_StringToNumber "./data.json" post (startup empty_disk 0))
  = Ok (Sent (registered "GET" "/greet"))
  /\ fst (catch_all example_header_rejected example_send_error
            (mkRequest None None "GET" "/greet" []) w1)
     = Ok (Sent (mkResponse (JNum 201) [] (BJson (Some (JObj [("hi", JStr "there")])))))
  /\ fst (catch_all example_header_rejected example_send_error
            (mkRequest None None "GET" "/unregistered" []) w1)
     = Ok (Sent (json_response 404 (JObj [("error", JStr "Not found")]))).
Proof. cbv zeta. repeat split; vm_compute; reflexivity. Qed.

(** ** One definition per key *)

Lemma one_definition_per_key_witness :
  let first := mkRequest None None "POST" "/register"
                 [("path", JStr "a"); ("method", JStr "get"); ("response", JStr "old")] in
  let second := mkRequest None None "POST" "/register"
                  [("path", JStr "/a"); ("response", JStr "new"); ("status", JNum 201)] in
  let w1 := snd (register example_StringToNumber "./data.json" first (startup empty_disk 0)) in
  let w2 := snd (register example_StringToNumber "./data.json" second (set_clock 11000 w1)) in
  Map_get "GET /a" (routes w2) = Some (mkRoute "GET" "/a" (JNum 201) (Some (JStr "new")) (JObj []))
  /\ definitions_for "GET" "/a" (routes w2) = 1%nat.
Proof.
  cbv zeta.
  pose proof (proj2 (one_definition_per_key example_StringToNumber "./data.json")
    (startup empty_disk 0)
    (mkRequest None None "POST" "/register"
       [("path", JStr "a"); ("method", JStr "get"); ("response", JStr "old")])
    (mkRequest None None "POST" "/register"
       [("path", JStr "/a"); ("response", JStr "new"); ("status", JNum 201)])
    11000
    (reach_start _ _ (startup empty_disk 0) eq_refl) eq_refl eq_refl eq_refl eq_refl) as (Hget & _ & Hone & _).
  split; [exact Hget | exact Hone].
Defined.

(** ** The catch-all handler *)

Lemma catch_all_header_errors_ignored_witness :
  let route := mkRoute "GET" "/greet" (JNum 201) (Some (JObj [("hi", JStr "there")]))
                 (JObj [("X-One", JStr "1"); ("X-Bad", JObj [("toString", JNum 1)]);
                        ("X-Three", JStr "3")]) in
  let w := set_routes (fun _ => [("GET /greet", route)]) (startup empty_disk 0) in
  let req := mkRequest None None "get" "/greet" [] in
  fst (apply_headers example_header_rejected (headers route) (mkResponse (JNum 200) [] BNone))
  = Throw (TypeError "Cannot convert object to primitive value")
  /\ catch_all example_header_rejected example_send_error req w
     = (Ok (Sent (mkResponse (JNum 201) [("X-One", "1")]
                    (BJson (Some (JObj [("hi", JStr "there")]))))), w).
Proof.
  cbv zeta. split; [reflexivity|].
  apply (catch_all_header_errors_ignored example_header_rejected example_send_error
           (mkRequest None None "get" "/greet" [])
           (set_routes (fun _ => [("GET /greet",
              mkRoute "GET" "/greet" (JNum 201) (Some (JObj [("hi", JStr "there")]))
                (JObj [("X-One", JStr "1"); ("X-Bad", JObj [("toString", JNum 1)]);
                       ("X-Three", JStr "3")]))]) (startup empty_disk 0))
           (mkRoute "GET" "/greet" (JNum 201) (Some (JObj [("hi", JStr "there")]))
              (JObj [("X-One", JStr "1"); ("X-Bad", JObj [("toString", JNum 1)]);
                     ("X-Three", JStr "3")]))); reflexivity.
Defined.

(** C10, as the claim states it, fails on a matched route whose stored
    status the HTTP layer refuses.  [POST /register] with [status: true]
    stores the status [Number(true) || 200], that is 1.  A [GET] of the
    route then applies the stored headers, the header with the empty name
    is refused, the exception is caught and ignored, and line 158 throws:
    no response with the stored status and body is sent. *)
Lemma catch_all_refused_status_throws :
  let post := mkRequest None None "POST" "/register"
                [("path", JStr "/greet"); ("response", JStr "hi"); ("status", JBool true);
                 ("headers", JObj [("", JStr "x")])] in
  let w := snd (register example_StringToNumber "./data.json" post (startup empty_disk 0)) in
  let req := mkRequest None None "GET" "/greet" [] in
  Map_get "GET /greet" (routes w)
  = Some (mkRoute "GET" "/greet" (JNum 1) (Some (JStr "hi")) (JObj [("", JStr "x")]))
  /\ fst (apply_headers example_header_rejected (JObj [("", JStr "x")])
            (mkResponse (JNum 200) [] BNone))
     = Throw (TypeError "Invalid header")
  /\ catch_all example_header_rejected example_send_error req w
     = (Throw (RangeError "Invalid status code"), w)
  /\ ~ (exists res, catch_all example_header_rejected example_send_error req w
                    = (Ok (Sent res), w)).
Proof.
  cbv zeta. split; [vm_compute; reflexivity|]. split; [reflexivity|].
  assert (H : catch_all example_header_rejected example_send_error
                (mkRequest None None "GET" "/greet" [])
                (snd (register example_StringToNumber "./data.json"
                        (mkRequest None None "POST" "/register"
                           [("path", JStr "/greet"); ("response", JStr "hi");
                            ("status", JBool true); ("headers", JObj [("", JStr "x")])])
                        (startup empty_disk 0)))
              = (Throw (RangeError "Invalid status code"),
                 snd (register example_StringToNumber "./data.json"
                        (mkRequest None None "POST" "/register"
                           [("path", JStr "/greet"); ("response", JStr "hi");
                            ("status", JBool true); ("headers", JObj [("", JStr "x")])])
                        (startup empty_disk 0))))
    by (vm_compute; reflexivity).
  split; [exact H|]. intros [res Hres]. rewrite H in Hres. discriminate Hres.
Qed.


(** ** Persisting and reloading *)

(** C4.  Reloading does not give back the table on any of three
    registrations.
    The one with [headers: null] is stored with headers [null], written
    to the snapshot with headers [{}], and comes back with headers [{}].
    The one with an empty method is stored under the key [" /b"] and comes
    back under ["GET /b"] with method [GET].  The one with [status: 1e999]
    is stored with status [Infinity], written with status [null], and
    comes back with status 200. *)
Lemma snapshot_roundtrip_differs :
  let reqs :=
    [(1000, mkRequest None None "POST" "/register"
              [("path", JStr "/a"); ("response", JNum 1); ("headers", JNull)]);
     (12000, mkRequest None None "POST" "/register"
               [("path", JStr "/b"); ("method", JStr ""); ("response", JNum 2)]);
     (23000, mkRequest None None "POST" "/register"
               [("path", JStr "/c"); ("response", JNum 3); ("status", JNum (Inf false))])] in
  let w1 := serve_registrations example_StringToNumber "./data.json" reqs
              (startup empty_disk 0) in
  exists w2 w3,
    persistRoutes "./data.json" w1 = (Ok tt, w2)
    /\ loadRoutes "./data.json" (startup (disk w2) 30000) = (Ok tt, w3)
    /\ routes w1
       = [("GET /a", mkRoute "GET" "/a" (JNum 200) (Some (JNum 1)) JNull);
          (" /b", mkRoute "" "/b" (JNum 200) (Some (JNum 2)) (JObj []));
          ("GET /c", mkRoute "GET" "/c" (JNum (Inf false)) (Some (JNum 3)) (JObj []))]
    /\ routes w3
       = [("GET /a", mkRoute "GET" "/a" (JNum 200) (Some (JNum 1)) (JObj []));
          ("GET /b", mkRoute "GET" "/b" (JNum 200) (Some (JNum 2)) (JObj []));
          ("GET /c", mkRoute "GET" "/c" (JNum 200) (Some (JNum 3)) (JObj []))]
    /\ routes w3 <> routes w1.
Proof.
  cbv zeta. eexists _, _.
  split; [vm_compute; reflexivity|].
  split; [vm_compute; reflexivity|].
  split; [reflexivity|]. split; [reflexivity|].
  vm_compute. discriminate.
Qed.

Lemma snapshot_roundtrip_witness :
  let reqs :=
    [(1000, mkRequest None None "POST" "/register"
              [("path", JStr "greet"); ("response", JObj [("hi", JStr "there")]);
               ("status", JNum 201)]);
     (12000, mkRequest None None "POST" "/register"
               [("path", JStr "/a"); ("method", JStr "put"); ("response", JStr "x");
                ("headers", JNull)])] in
  let w1 := serve_registrations example_StringToNumber "./data.json" reqs (startup empty_disk 0) in
  exists w3,
    loadRoutes "./data.json" (startup (disk (snd (persistRoutes "./data.json" w1))) 20000)
    = (Ok tt, w3)
    /\ routes w3 = map (fun kv => (fst kv, reloaded (snd kv))) (routes w1).
Proof.
  cbv zeta.
  destruct (snapshot_roundtrip example_StringToNumber "./data.json"
    [(1000, mkRequest None None "POST" "/register"
              [("path", JStr "greet"); ("response", JObj [("hi", JStr "there")]);
               ("status", JNum 201)]);
     (12000, mkRequest None None "POST" "/register"
               [("path", JStr "/a"); ("method", JStr "put"); ("response", JStr "x");
                ("headers", JNull)])]
    empty_disk 0 20000
    (snd (persistRoutes "./data.json"
       (serve_registrations example_StringToNumber "./data.json"
          [(1000, mkRequest None None "POST" "/register"
                    [("path", JStr "greet"); ("response", JObj [("hi", JStr "there")]);
                     ("status", JNum 201)]);
           (12000, mkRequest None None "POST" "/register"
                     [("path", JStr "/a"); ("method", JStr "put"); ("response", JStr "x");
                      ("headers", JNull)])]
          (startup empty_disk 0)))))
    as (w3 & Hload & Hroutes & _).
  - vm_compute. repeat constructor; discriminate.
  - vm_compute. repeat constructor.
  - vm_compute. reflexivity.
  - vm_compute. set_solver.
  - exists w3. split; [exact Hload | exact Hroutes].
Defined.

(** * Further properties of the code *)

(** ** [normalizePath] on any value *)


(** ** Route keys *)

Lemma route_key_inj_aux (m m' rest rest' : string) :
  no_space m -> no_space m' ->
  m +:+ String " " rest = m' +:+ String " " rest' -> m = m' /\ rest = rest'.
Proof.
  unfold no_space. revert m'. induction m as [|c m IH]; intros [|c' m'] Hm Hm' H; simpl in *.
  - injection H as ->. split; reflexivity.
  - injection H as <- _. discriminate Hm'.
  - injection H as -> _. discriminate Hm.
  - injection H as -> H.
    apply orb_false_elim in Hm as [_ Hm]. apply orb_false_elim in Hm' as [_ Hm'].
    destruct (IH m' Hm Hm' H) as [-> ->]. split; reflexivity.
Qed.

(** X2. Two (method, path) pairs whose methods hold no space have the
    same key only if they are the same pair: such definitions never
    overwrite one another. *)
Theorem route_key_injective (m m' p p' : string) :
  no_space m -> no_space m' ->
  route_key m p = route_key m' p' -> m = m' /\ p = p'.
Proof. unfold route_key. apply route_key_inj_aux. Qed.

(** Without that, two pairs can share a key. *)
Example route_key_collision : route_key "GET /a" "/b" = route_key "GET" "/a /b".
Proof. reflexivity. Qed.

(** ** The rate limiter *)

Section LimiterFacts.

Variable RATE_LIMIT_SECONDS : Z.
Variable RATE_LIMIT_EXEMPT : list string.

(** X3. The limiter never throws.  It either rejects, with the 429 reply
    for a wait of at least one second and the state untouched, or calls
    [next()] with the state untouched or with this client's timestamp set
    to the current second.  It never writes to the route table, the disk
    or the log, never changes another client's timestamp and never drops
    one. *)
Theorem rateLimiter_outcomes (req : Request) (w : World) :
  exists v w',
    rateLimiter RATE_LIMIT_SECONDS RATE_LIMIT_EXEMPT req w = (Ok v, w')
    /\ match v with
       | Sent res => w' = w /\ exists wait, 0 < wait /\ res = too_many_requests wait
       | Next =>
           w' = w
           \/ w' = set_lastRequest (insert (client_ip req) (seconds (clock w))) w
       end
    /\ routes w' = routes w /\ disk w' = disk w /\ console w' = console w
    /\ (forall ip, ip <> client_ip req -> lastRequest w' !! ip = lastRequest w !! ip)
    /\ (forall ip, is_Some (lastRequest w !! ip) -> is_Some (lastRequest w' !! ip)).
Proof.
  rewrite rateLimiter_run.
  destruct (existsb _ _).
  { eexists _, _. split; [reflexivity|]. split; [left; reflexivity|]. repeat split; auto. }
  cbv zeta.
  destruct (Z.ltb_spec (seconds (clock w) - last_or_0 req w) RATE_LIMIT_SECONDS) as [Hlt|Hge].
  - eexists _, _. split; [reflexivity|]. split.
    + split; [reflexivity|]. eexists. split; [|reflexivity]. lia.
    + repeat split; auto.
  - eexists _, _. split; [reflexivity|]. split; [right; reflexivity|].
    cbn [routes disk console lastRequest set_lastRequest]. repeat split.
    + intros ip Hip. apply lookup_insert_ne. congruence.
    + intros ip Hsome. destruct (decide (ip = client_ip req)) as [->|Hne].
      * rewrite lookup_insert_eq. eauto.
      * rewrite lookup_insert_ne by congruence. exact Hsome.
Qed.

(** X4. Once a client's request has been admitted, a request from the
    same client is rejected as long as fewer than the window's seconds
    have passed, with exactly the remaining seconds to wait and without
    restarting the wait, and is admitted again from then on. *)
Theorem rateLimiter_cooldown_after_admission (req req' : Request) (w : World) (later : Z) :
  ~ In (req_path req) RATE_LIMIT_EXEMPT ->
  ~ In (req_path req') RATE_LIMIT_EXEMPT ->
  client_ip req' = client_ip req ->
  fst (rateLimiter RATE_LIMIT_SECONDS RATE_LIMIT_EXEMPT req w) = Ok Next ->
  let w1 := set_clock later (snd (rateLimiter RATE_LIMIT_SECONDS RATE_LIMIT_EXEMPT req w)) in
  let passed := seconds later - seconds (clock w) in
  (passed < RATE_LIMIT_SECONDS ->
     rateLimiter RATE_LIMIT_SECONDS RATE_LIMIT_EXEMPT req' w1
     = (Ok (Sent (too_many_requests (RATE_LIMIT_SECONDS - passed))), w1))
  /\ (RATE_LIMIT_SECONDS <= passed ->
      rateLimiter RATE_LIMIT_SECONDS RATE_LIMIT_EXEMPT req' w1
      = (Ok Next, set_lastRequest (insert (client_ip req) (seconds later)) w1)).
Proof.
  intros Hex Hex' Hip Hadm w1 passed.
  assert (Hw1 : lastRequest w1 !! client_ip req' = Some (seconds (clock w))).
  { subst w1. revert Hadm. rewrite rateLimiter_run.
    destruct (existsb _ _) eqn:E; [apply existsb_eqb_In in E; contradiction|].
    cbv zeta. destruct (_ <? _); [discriminate|]. intros _.
    cbn. rewrite Hip. apply lookup_insert_eq. }
  destruct (rateLimiter_recorded RATE_LIMIT_SECONDS RATE_LIMIT_EXEMPT req' w1 _ Hex' Hw1)
    as [Hadmit Hreject].
  assert (Hclock : seconds (clock w1) = seconds later) by reflexivity.
  rewrite Hclock in Hadmit, Hreject. split.
  - intros H. apply Hreject. exact H.
  - intros H. rewrite Hip in Hadmit. apply Hadmit. exact H.
Qed.

(** X5. Clients do not affect one another: whatever the limiter did with a
    request from one client, a later request from a client with another
    address is decided as if the first had not arrived. *)
Theorem rateLimiter_clients_independent (req req' : Request) (w : World) (later : Z) :
  client_ip req' <> client_ip req ->
  let w1 := snd (rateLimiter RATE_LIMIT_SECONDS RATE_LIMIT_EXEMPT req w) in
  fst (rateLimiter RATE_LIMIT_SECONDS RATE_LIMIT_EXEMPT req' (set_clock later w1))
  = fst (rateLimiter RATE_LIMIT_SECONDS RATE_LIMIT_EXEMPT req' (set_clock later w)).
Proof.
  intros Hip w1.
  assert (Hlast : lastRequest w1 !! client_ip req' = lastRequest w !! client_ip req').
  { subst w1. rewrite rateLimiter_run.
    destruct (existsb _ _); [reflexivity|]. cbv zeta.
    destruct (_ <? _); [reflexivity|]. cbn. apply lookup_insert_ne. congruence. }
  rewrite !rateLimiter_run. destruct (existsb _ _); [reflexivity|].
  unfold last_or_0. cbn [lastRequest set_clock clock]. rewrite Hlast.
  cbv zeta. destruct (_ <? _); reflexivity.
Qed.

End LimiterFacts.

(** ** Atomic writes and the snapshot *)

(** Apart from the files, an atomic write changes nothing. *)
Lemma atomicWriteFile_frame (path : string) (data : file_text) (w : World) :
  let w' := snd (atomicWriteFile path data w) in
  routes w' = routes w /\ lastRequest w' = lastRequest w /\ console w' = console w
  /\ clock w' = clock w
  /\ unreadable (disk w') = unreadable (disk w)
  /\ unwritable (disk w') = unwritable (disk w)
  /\ forall q, q <> path -> q <> tmp_name path (clock w) ->
       files (disk w') !! q = files (disk w) !! q.
Proof.
  unfold atomicWriteFile, atomicWriteFile_write, atomicWriteFile_rename, fs_writeFile, fs_rename.
  run_monad.
  destruct (bool_decide (tmp_name path (clock w) ∈ _)); cbn; [repeat split|].
  rewrite lookup_insert_eq.
  destruct (bool_decide (path ∈ _)); cbn; repeat split.
  - intros q _ Hq. apply lookup_insert_ne. congruence.
  - intros q Hp Hq. rewrite lookup_insert_ne by congruence.
    rewrite lookup_delete_ne by congruence. apply lookup_insert_ne. congruence.
Qed.


(** With no other handler running, the call among the others is the call
    from start to end. *)
Lemma atomicWriteFile_among_undisturbed (path : string) (data : file_text) (w : World) :
  atomicWriteFile_among (fun s => s) (fun s => s) path data w = atomicWriteFile path data w.
Proof.
  unfold atomicWriteFile_among, atomicWriteFile, atomicWriteFile_write, atomicWriteFile_rename,
    fs_writeFile, fs_rename.
  run_monad. destruct (bool_decide (tmp_name path (clock w) ∈ _)); reflexivity.
Qed.



(** X8. The temporary name is never the target's own name, names a
    sibling of the target (the target's path followed by a suffix without
    a slash), and differs between two writes to the same target whenever
    the millisecond clock differs. *)
Theorem tmp_name_properties (path : string) (now now' : Z) :
  tmp_name path now <> path
  /\ (exists suffix, tmp_name path now = path +:+ suffix /\ has_slash suffix = false)
  /\ (now <> now' -> tmp_name path now <> tmp_name path now').
Proof.
  split; [apply tmp_name_fresh|]. split; [apply tmp_name_sibling|].
  intros Hne H. apply Hne. eapply tmp_name_inj. exact H.
Qed.


(** ** Registration *)

Lemma persistRoutes_failed (DATA_FILE : string) (w w2 : World) (e : error) :
  persistRoutes DATA_FILE w = (Throw e, w2) ->
  files (disk w2) !! DATA_FILE = files (disk w) !! DATA_FILE /\ console w2 = console w.
Proof.
  unfold persistRoutes. run_monad. intros H.
  split; [apply (atomicWriteFile_failure _ _ _ _ _ H)|].
  match type of H with atomicWriteFile ?p ?d ?w0 = _ =>
    pose proof (atomicWriteFile_frame p d w0) as Hf end.
  rewrite H in Hf. apply Hf.
Qed.

Section RegisterFacts.

Variable StringToNumber : string -> option number.
Variable DATA_FILE : string.

(** X10. A path that is present but falsy, the empty string included, is
    turned away like a missing one: the reply is 400 and nothing changes.
    The route ["/"] can therefore only be registered as ["/"]. *)
Theorem register_rejects_falsy_path (req : Request) (w : World) (v : json) :
  own "path" (req_body req) = Some v ->
  v = JStr "" \/ v = JNull \/ v = JBool false \/ v = JNum 0 ->
  register StringToNumber DATA_FILE req w = (Ok (Sent bad_request), w).
Proof.
  intros Hpath Hv. apply register_rejects. left. rewrite Hpath.
  destruct Hv as [-> | [-> | [-> | ->]]]; reflexivity.
Qed.

(** X11. A body that passes the check with a path that is not a string
    (a number, [true], an object, an array), or with a method that is
    present and not a string ([null] included), makes the handler throw a
    TypeError: no reply is sent and nothing has changed. *)
Theorem register_throws_before_writing (req : Request) (w : World) :
  truthy (own "path" (req_body req)) = true ->
  is_Some (own "response" (req_body req)) ->
  (forall s, own "path" (req_body req) <> Some (JStr s))
  \/ (exists v, own "method" (req_body req) = Some v /\ forall s, v <> JStr s) ->
  exists msg, register StringToNumber DATA_FILE req w = (Throw (TypeError msg), w).
Proof. apply register_ill_typed. Qed.

(** X12. Whatever requests a process that started empty has served on
    [POST /register], its table is well keyed and every stored
    definition has an upper-cased method, a path that starts with a slash,
    a numeric status other than 0 and a response that is not
    [undefined]. *)
Theorem registrations_store_normalized (reqs : list (Z * Request)) (d : Disk) (now : Z) :
  let table := routes (serve_registrations StringToNumber DATA_FILE reqs (startup d now)) in
  table_wf table /\ Forall (fun kv => registered_shape (snd kv)) table.
Proof.
  apply (serve_registrations_shape StringToNumber DATA_FILE reqs (startup d now)).
  - split; constructor.
  - constructor.
Qed.

(** X14. A well-typed registration writes one key only: every other key
    keeps its definition, and the keys keep their order, a new key going
    to the end and an overwritten one staying where it was. *)
Theorem register_changes_one_key (req : Request) (w : World) :
  well_typed_body (req_body req) = true ->
  let key := route_key (canonical_method (req_body req)) (canonical_path (req_body req)) in
  let w' := snd (register StringToNumber DATA_FILE req w) in
  (forall k, k <> key -> Map_get k (routes w') = Map_get k (routes w))
  /\ map fst (routes w')
     = match Map_get key (routes w) with
       | Some _ => map fst (routes w)
       | None => (map fst (routes w) ++ [key])%list
       end
  /\ lastRequest w' = lastRequest w.
Proof.
  intros Hwt key w'. subst w'.
  rewrite (register_accepts_routes StringToNumber DATA_FILE req w Hwt). fold key.
  split; [|split].
  - intros k Hk. apply Map_get_set_ne. exact Hk.
  - apply Map_set_keys.
  - rewrite (register_accepts StringToNumber DATA_FILE req w Hwt). cbv zeta.
    match goal with |- context [persistRoutes DATA_FILE ?w1] =>
      assert (Hl : lastRequest (snd (persistRoutes DATA_FILE w1)) = lastRequest w);
      [unfold persistRoutes; run_monad;
       match goal with |- context [atomicWriteFile ?p ?d ?w0] =>
         apply (atomicWriteFile_frame p d w0) end|];
      destruct (persistRoutes DATA_FILE w1) as [[[]|e] w2]
    end; exact Hl.
Qed.

Section RegisterAmong.

Variable before between : World -> World.





(** With no other handler running, the registration among the others is
    the registration from start to end. *)
Lemma register_among_undisturbed (req : Request) (w : World) :
  register_among StringToNumber DATA_FILE (fun s => s) (fun s => s) req w
  = register StringToNumber DATA_FILE req w.
Proof.
  assert (Hp : forall s, persistRoutes_among DATA_FILE (fun s => s) (fun s => s) s
                         = persistRoutes DATA_FILE s).
  { intros s. unfold persistRoutes_among, persistRoutes. run_monad.
    apply atomicWriteFile_among_undisturbed. }
  unfold register_among, register.
  destruct (negb _ || negb _); [reflexivity|]. run_monad.
  destruct (normalizePath _) as [p|e]; [|reflexivity].
  destruct (toUpperCase _) as [m|e]; [|reflexivity].
  destruct (Number _ _) as [n|e]; [|reflexivity].
  cbn [fst snd]. unfold try_catch. rewrite Hp. reflexivity.
Qed.

End RegisterAmong.

End RegisterFacts.

(** ** The catch-all handler *)

Section CatchAllFacts.

Variable header_rejected : string -> string -> bool.
Variable send_error : json -> list (string * string) -> option error.





Section Served.

Variable StringToNumber : string -> option number.
Variable DATA_FILE : string.


End Served.

End CatchAllFacts.

(** ** Loading *)

Lemma prop_field (item : json) (k : string) :
  item <> JNull -> prop item k = Ok (field item k).
Proof. destruct item; try reflexivity. congruence. Qed.

Lemma toUpperCase_string_or_falsy (v : jsval) :
  string_or_falsy v = true ->
  toUpperCase (js_or v (JStr "GET"))
  = Ok match js_or v (JStr "GET") with JStr s => upper s | _ => "" end.
Proof.
  destruct v as [[| [] | [[| |]|] | s | items | props]|]; cbn; try discriminate;
    try reflexivity.
  destruct s; reflexivity.
Qed.

Lemma normalizePath_string_or_falsy (v : jsval) :
  string_or_falsy v = true -> exists p, normalizePath v = Ok p.
Proof.
  destruct v as [[| [] | [[| |]|] | s | items | props]|]; cbn; try discriminate;
    try (eexists; reflexivity).
  rewrite normalizePath_string. eexists; reflexivity.
Qed.

Lemma loadRoutes_check_loadable (item : json) :
  loadRoutes_check item = Ok tt <-> loadable item = true.
Proof.
  unfold loadRoutes_check, loadable.
  assert (Hcases : item = JNull \/ item <> JNull)
    by (destruct item; [left; reflexivity | right; discriminate ..]).
  destruct Hcases as [->|Hnn]; [split; discriminate|].
  rewrite !prop_field by exact Hnn. cbn [rbind].
  assert (Hgoal :
    rbind (toUpperCase (js_or (field item "method") (JStr "GET"))) (fun _ =>
      rbind (Ok (field item "path")) (fun item_path =>
        rbind (normalizePath item_path) (fun _ => Ok tt))) = Ok tt
    <-> string_or_falsy (field item "method") && string_or_falsy (field item "path") = true).
  { destruct (string_or_falsy (field item "method")) eqn:Hm.
    - rewrite (toUpperCase_string_or_falsy _ Hm). cbn [rbind andb].
      destruct (string_or_falsy (field item "path")) eqn:Hp.
      + destruct (normalizePath_string_or_falsy _ Hp) as [p ->]. split; reflexivity.
      + split; [|discriminate]. unfold normalizePath.
        destruct (field item "path") as [[| [] | [[| |]|] | [|c s] | items | props]|];
          cbn in Hp |- *; try discriminate.
    - split; [|discriminate].
      destruct (field item "method") as [[| [] | [[| |]|] | [|c s] | items | props]|];
        cbn in Hm |- *; try discriminate. }
  destruct item; try exact Hgoal. congruence.
Qed.

Lemma loadRoutes_item_loadable (item : json) (w : World) :
  loadable item = true ->
  loadRoutes_item item w
  = (Ok tt,
     set_routes (Map_set (route_key (method (item_route item)) (path (item_route item)))
                   (item_route item)) w).
Proof.
  intros Hl. assert (Hnn : item <> JNull) by (intros ->; discriminate Hl).
  assert (Hl' : string_or_falsy (field item "method")
                && string_or_falsy (field item "path") = true).
  { destruct item; try exact Hl. congruence. }
  apply andb_prop in Hl' as [Hm Hp].
  unfold loadRoutes_item, item_route, route_key. run_monad.
  rewrite !prop_field by exact Hnn.
  rewrite (toUpperCase_string_or_falsy _ Hm).
  destruct (normalizePath_string_or_falsy _ Hp) as [p Hpp]. rewrite Hpp. reflexivity.
Qed.

Lemma forEach_check_all (items : list json) (w : World) :
  forallb loadable items = true ->
  forEach (fun item => lift (loadRoutes_check item)) items w = (Ok tt, w).
Proof.
  induction items as [|item items IH]; cbn [forallb forEach]; [reflexivity|].
  intros H. apply andb_prop in H as [Hi Hrest].
  run_monad. rewrite (proj2 (loadRoutes_check_loadable item) Hi). apply IH. exact Hrest.
Qed.

Lemma forEach_check_some (items : list json) (bad : json) (w : World) :
  In bad items -> loadable bad = false ->
  exists e, forEach (fun item => lift (loadRoutes_check item)) items w = (Throw e, w).
Proof.
  intros Hin Hbad. induction items as [|item items IH]; [destruct Hin|].
  cbn [forEach]. run_monad.
  destruct (loadRoutes_check item) as [[]|e] eqn:Hc; [|eexists; reflexivity].
  destruct Hin as [->|Hin].
  - apply loadRoutes_check_loadable in Hc. congruence.
  - apply IH. exact Hin.
Qed.

Lemma forEach_load_all (items : list json) (w : World) :
  forallb loadable items = true ->
  forEach loadRoutes_item items w
  = (Ok tt,
     set_routes (fun table =>
       fold_left (fun acc item =>
         Map_set (route_key (method (item_route item)) (path (item_route item)))
           (item_route item) acc) items table) w).
Proof.
  revert w. induction items as [|item items IH]; intros w; cbn [forallb forEach fold_left].
  - intros _. destruct w; reflexivity.
  - intros H. apply andb_prop in H as [Hi Hrest].
    run_monad. rewrite (loadRoutes_item_loadable item w Hi). rewrite (IH _ Hrest). reflexivity.
Qed.

(** A record that makes the second loop throw has changed nothing. *)
Lemma loadRoutes_item_throws (item : json) (s s' : World) (e : error) :
  loadRoutes_item item s = (Throw e, s') -> s' = s.
Proof.
  unfold loadRoutes_item. run_monad.
  destruct (prop item "method") as [im|e1]; [|intros [= _ <-]; reflexivity].
  destruct (toUpperCase _) as [m|e1]; [|intros [= _ <-]; reflexivity].
  destruct (prop item "path") as [ip|e1]; [|intros [= _ <-]; reflexivity].
  destruct (normalizePath ip) as [p|e1]; [|intros [= _ <-]; reflexivity].
  destruct (prop item "status") as [ist|e1]; [|intros [= _ <-]; reflexivity].
  destruct (prop item "response") as [ir|e1]; [|intros [= _ <-]; reflexivity].
  destruct (prop item "headers") as [ih|e1]; [|intros [= _ <-]; reflexivity].
  discriminate.
Qed.

Section LoadFacts.

Variable DATA_FILE : string.

(** X19. One record the first loop cannot read ([null], or a method or a
    path that is truthy and not a string) makes [loadRoutes] drop the
    whole snapshot: the table stays as it was, the records before and
    after the bad one included, and the error is logged once. *)
Theorem loadRoutes_bad_record_drops_all (items : list json) (bad : json) (w : World) :
  files (disk w) !! DATA_FILE = Some (Serialized (JArr items)) ->
  DATA_FILE ∉ unreadable (disk w) ->
  In bad items -> loadable bad = false ->
  exists e,
    loadRoutes DATA_FILE w
    = (Ok tt, mkWorld (routes w) (lastRequest w) (disk w) (clock w)
                (("Failed to load routes:", e) :: console w)).
Proof.
  intros Hf Hr Hin Hbad.
  destruct (forEach_check_some items bad w Hin Hbad) as [e He].
  exists e. unfold loadRoutes. run_monad.
  rewrite Hf. rewrite bool_decide_eq_true_2 by eauto. cbn [negb].
  unfold fs_readFile. rewrite Hf. rewrite bool_decide_eq_false_2 by exact Hr.
  cbn [JSON_parse]. unfold lift in He. rewrite He. reflexivity.
Qed.

(** X20. When every record of the snapshot can be read, [loadRoutes]
    stores them all, in order, each under the key of its upper-cased
    method ([GET] when falsy) and normalized path, a later record
    replacing an earlier one with the same key; nothing is logged and
    nothing but the table changes. *)
Theorem loadRoutes_loads_every_record (items : list json) (w : World) :
  files (disk w) !! DATA_FILE = Some (Serialized (JArr items)) ->
  DATA_FILE ∉ unreadable (disk w) ->
  forallb loadable items = true ->
  loadRoutes DATA_FILE w
  = (Ok tt,
     set_routes (fun table =>
       fold_left (fun acc item =>
         Map_set (route_key (method (item_route item)) (path (item_route item)))
           (item_route item) acc) items table) w).
Proof.
  intros Hf Hr Hall. unfold loadRoutes. run_monad.
  rewrite Hf. rewrite bool_decide_eq_true_2 by eauto. cbn [negb].
  unfold fs_readFile. rewrite Hf. rewrite bool_decide_eq_false_2 by exact Hr.
  cbn [JSON_parse].
  pose proof (forEach_check_all items w Hall) as Hc. unfold lift in Hc. rewrite Hc.
  rewrite (forEach_load_all items w Hall). reflexivity.
Qed.

(** X21. A snapshot that is JSON but not an array (an object, a string, a
    number, [null]) is ignored without a word: nothing is loaded and
    nothing is logged. *)
Theorem loadRoutes_ignores_non_array (v : json) (w : World) :
  files (disk w) !! DATA_FILE = Some (Serialized v) ->
  DATA_FILE ∉ unreadable (disk w) ->
  (forall items, v <> JArr items) ->
  loadRoutes DATA_FILE w = (Ok tt, w).
Proof.
  intros Hf Hr Hna. unfold loadRoutes. run_monad.
  rewrite Hf. rewrite bool_decide_eq_true_2 by eauto. cbn [negb].
  unfold fs_readFile. rewrite Hf. rewrite bool_decide_eq_false_2 by exact Hr.
  cbn [JSON_parse]. destruct v; try reflexivity. destruct (Hna items eq_refl).
Qed.

(** Whatever [loadRoutes] does, a property of the state that storing a
    record and logging keep is kept. *)
Lemma loadRoutes_invariant (P : World -> Prop) (w : World) :
  (forall item s, P s -> P (snd (loadRoutes_item item s))) ->
  (forall e s, P s -> P (snd (console_error "Failed to load routes:" e s))) ->
  P w -> P (snd (loadRoutes DATA_FILE w)).
Proof.
  intros Hitem Hlog Hw. unfold loadRoutes.
  unfold try_catch.
  match goal with |- context [match ?body w with _ => _ end] =>
    assert (Hbody : P (snd (body w)))
  end.
  { run_monad.
    destruct (bool_decide _); cbn [negb]; [|exact Hw].
    destruct (fs_readFile DATA_FILE w) as [[raw|e] w1] eqn:Hread.
    2:{ unfold fs_readFile in Hread. destruct (files (disk w) !! DATA_FILE);
        [destruct (bool_decide _)|]; injection Hread as _ <-; exact Hw. }
    assert (w1 = w) as ->.
    { unfold fs_readFile in Hread. destruct (files (disk w) !! DATA_FILE);
        [destruct (bool_decide _)|]; injection Hread as _ <-; reflexivity. }
    destruct (JSON_parse raw) as [[| | | | items |]|e]; try exact Hw.
    match goal with |- context [forEach ?f items w] =>
      pose proof (forEach_invariant f (fun s => s = w) items (fun x s Hs => Hs) w eq_refl)
        as Hchk;
      destruct (forEach f items w) as [[[]|e] w2]
    end; cbn in Hchk; subst w2; [|exact Hw].
    pose proof (forEach_invariant loadRoutes_item P items Hitem w Hw) as Hload.
    destruct (forEach loadRoutes_item items w) as [[[]|e] w3]; exact Hload. }
  match goal with |- context [match ?body w with _ => _ end] =>
    destruct (body w) as [[[]|e] w'] end; cbn [snd] in *; [exact Hbody|].
  apply (Hlog e w' Hbody).
Qed.

(** X22. Whatever the snapshot file holds, [loadRoutes] writes to nothing
    but the route table and the log, and every definition it adds to a
    table of such definitions has an upper-cased method that is not
    empty, a path that starts with a slash, and a status and headers that
    are truthy; at startup the whole table is of that shape. *)
Theorem loadRoutes_stores_normalized (w : World) :
  let w' := snd (loadRoutes DATA_FILE w) in
  disk w' = disk w /\ lastRequest w' = lastRequest w /\ clock w' = clock w
  /\ (Forall (fun kv => loaded_shape (snd kv)) (routes w) ->
      Forall (fun kv => loaded_shape (snd kv)) (routes w')).
Proof.
  cbv zeta.
  pose proof (loadRoutes_invariant
    (fun s => disk s = disk w /\ lastRequest s = lastRequest w /\ clock s = clock w
              /\ (Forall (fun kv => loaded_shape (snd kv)) (routes w) ->
                  Forall (fun kv => loaded_shape (snd kv)) (routes s))) w) as H.
  apply H; clear H.
  - intros item s (Hd & Hl & Hc & Hsh).
    destruct (loadRoutes_item item s) as [[[]|e] s'] eqn:Hrun; cbn [snd].
    + destruct (loadRoutes_item_shape item s s' Hrun)
        as (r & -> & Hu & Hne & Hp & Hh & Hs & _).
      cbn [disk lastRequest clock routes set_routes].
      repeat split; try assumption.
      intros Hw. apply Map_set_Forall; [apply Hsh; exact Hw|].
      repeat split; assumption.
    + rewrite (loadRoutes_item_throws item s s' e Hrun). repeat split; assumption.
  - intros e s (Hd & Hl & Hc & Hsh). cbn. repeat split; assumption.
  - repeat split. intros Hw; exact Hw.
Qed.

End LoadFacts.

(** ** The configuration *)

Lemma trimStart_head (s : string) :
  trimStart s = "" \/ exists c r, trimStart s = String c r /\ is_space c = false.
Proof.
  induction s as [|c s IH]; [left; reflexivity|]. cbn [trimStart].
  destruct (is_space c) eqn:E; [exact IH|]. right. eexists _, _. split; [reflexivity | exact E].
Qed.

Lemma trimEnd_cons (c : ascii) (s : string) :
  is_space c = false -> trimEnd (String c s) = String c (trimEnd s).
Proof. intros H. cbn [trimEnd]. rewrite H. destruct (trimEnd s); reflexivity. Qed.

Lemma trimEnd_idem (s : string) : trimEnd (trimEnd s) = trimEnd s.
Proof.
  induction s as [|c s IH]; [reflexivity|]. cbn [trimEnd].
  destruct (trimEnd s) as [|k kept] eqn:E.
  - destruct (is_space c) eqn:Hc; [reflexivity|]. cbn [trimEnd]. rewrite Hc. reflexivity.
  - change (trimEnd (String c (String k kept)) = String c (String k kept)).
    cbn [trimEnd] in IH |- *. cbn [trimEnd]. rewrite IH. reflexivity.
Qed.

Lemma trim_idem (s : string) : trim (trim s) = trim s.
Proof.
  unfold trim. destruct (trimStart_head s) as [-> | (c & r & -> & Hc)]; [reflexivity|].
  rewrite (trimEnd_cons c r Hc). cbn [trimStart]. rewrite Hc.
  rewrite <- (trimEnd_cons c r Hc). apply trimEnd_idem.
Qed.

Lemma has_char_trimStart (c : ascii) (s : string) :
  has_char c s = false -> has_char c (trimStart s) = false.
Proof.
  induction s as [|k s IH]; [reflexivity|]. cbn [trimStart has_char]. intros H.
  apply orb_false_elim in H as [Hk Hs].
  destruct (is_space k); [apply IH; exact Hs|]. cbn [has_char]. rewrite Hk, Hs. reflexivity.
Qed.

Lemma has_char_trimEnd (c : ascii) (s : string) :
  has_char c s = false -> has_char c (trimEnd s) = false.
Proof.
  induction s as [|k s IH]; [reflexivity|]. cbn [trimEnd has_char]. intros H.
  apply orb_false_elim in H as [Hk Hs]. specialize (IH Hs).
  destruct (trimEnd s) as [|k' kept].
  - destruct (is_space k); [reflexivity|]. cbn [has_char]. rewrite Hk. reflexivity.
  - cbn [has_char] in *. rewrite Hk, IH. reflexivity.
Qed.

Lemma split_comma_no_comma (s : string) :
  Forall (fun piece => has_char "," piece = false) (split_comma s).
Proof.
  induction s as [|c s IH]; cbn [split_comma]; [repeat constructor|].
  destruct (Ascii.eqb c ",") eqn:E; [constructor; [reflexivity | exact IH]|].
  destruct (split_comma s) as [|piece pieces]; [repeat constructor; cbn; rewrite E; reflexivity|].
  inversion IH as [|? ? Hp Hps]; subst. constructor; [|exact Hps].
  cbn [has_char]. rewrite E, Hp. reflexivity.
Qed.

(** X23. Every path read from [RATE_LIMIT_EXEMPT] is non-empty, holds no
    comma and has no white space at either end, whatever the variable
    holds; when it is unset or empty no path is exempt. *)
Theorem read_RATE_LIMIT_EXEMPT_entries (env : option string) :
  Forall exempt_entry (read_RATE_LIMIT_EXEMPT env)
  /\ read_RATE_LIMIT_EXEMPT None = []
  /\ read_RATE_LIMIT_EXEMPT (Some "") = [].
Proof.
  split; [|split; reflexivity].
  unfold read_RATE_LIMIT_EXEMPT. apply List.Forall_forall. intros p Hp.
  apply filter_In in Hp as [Hp Hne]. apply in_map_iff in Hp as (piece & <- & Hpiece).
  pose proof (split_comma_no_comma (env_or env "")) as Hall.
  rewrite List.Forall_forall in Hall. specialize (Hall piece Hpiece).
  split; [|split].
  - intros E. rewrite E in Hne. discriminate.
  - unfold trim. apply has_char_trimEnd, has_char_trimStart. exact Hall.
  - apply trim_idem.
Qed.







(** ** The order of the middleware and the routes *)

Section PipelineFacts.

Variable StringToNumber : string -> option number.
Variable header_rejected : string -> string -> bool.
Variable send_error : json -> list (string * string) -> option error.
Variable DATA_FILE : string.
Variable RATE_LIMIT_SECONDS : Z.
Variable RATE_LIMIT_EXEMPT : list string.
Variable route_matches : string -> string -> Request -> bool.

Let limiter := rateLimiter RATE_LIMIT_SECONDS RATE_LIMIT_EXEMPT.
Let server :=
  handle StringToNumber header_rejected send_error DATA_FILE RATE_LIMIT_SECONDS RATE_LIMIT_EXEMPT
    route_matches.



(** The server, as one case distinction. *)
Lemma handle_run (req : Request) (w : World) :
  server req w =
    match limiter req w with
    | (Ok (Sent res), w1) => (Ok (Sent res), w1)
    | (Ok Next, w1) =>
        if route_matches "POST" "/register" req then register StringToNumber DATA_FILE req w1
        else if route_matches "GET" "/__routes" req then list_routes w1
        else if route_matches "GET" "/health" req then health w1
        else catch_all header_rejected send_error req w1
    | (Throw e, w1) => (Throw e, w1)
    end.
Proof.
  unfold server, handle, limiter. unfold mbind at 1. unfold M_bind.
  destruct (rateLimiter RATE_LIMIT_SECONDS RATE_LIMIT_EXEMPT req w) as [[[|res]|e] w1];
    try reflexivity.
  destruct (route_matches "POST" "/register" req); [reflexivity|].
  destruct (route_matches "GET" "/__routes" req); [reflexivity|].
  destruct (route_matches "GET" "/health" req); reflexivity.
Qed.

(** X25. A request the limiter rejects reaches no handler: the reply is
    the limiter's 429 and the state is exactly as before.  A rejected
    [POST /register] therefore registers nothing and writes nothing. *)
Theorem handle_rejected_request (req : Request) (w : World) (res : Response) :
  fst (rateLimiter RATE_LIMIT_SECONDS RATE_LIMIT_EXEMPT req w) = Ok (Sent res) ->
  handle StringToNumber header_rejected send_error DATA_FILE RATE_LIMIT_SECONDS RATE_LIMIT_EXEMPT
    route_matches req w
  = (Ok (Sent res), w)
  /\ exists wait, 0 < wait /\ res = too_many_requests wait.
Proof.
  intros Hrej. fold server. rewrite handle_run. unfold limiter.
  revert Hrej. rewrite rateLimiter_run.
  destruct (existsb _ _); [discriminate|]. cbv zeta.
  destruct (Z.ltb_spec (seconds (clock w) - last_or_0 req w) RATE_LIMIT_SECONDS) as [Hlt|Hge];
    [|discriminate].
  cbn [fst]. intros [= <-]. split; [reflexivity|].
  eexists. split; [|reflexivity]. lia.
Qed.



End PipelineFacts.

(** * The further properties on concrete runs *)

Lemma route_key_injective_witness : "GET" = "GET" /\ "/a b" = "/a b".
Proof. apply (route_key_injective "GET" "GET" "/a b" "/a b"); reflexivity. Defined.

Lemma rateLimiter_cooldown_after_admission_witness :
  let req := mkRequest (Some "203.0.113.7") None "GET" "/greet" [] in
  let w1 := set_clock 1793000005000
              (snd (rateLimiter 10 [] req (startup empty_disk 1793000000000))) in
  rateLimiter 10 [] req w1 = (Ok (Sent (too_many_requests 5)), w1).
Proof.
  cbv zeta.
  apply (proj1 (rateLimiter_cooldown_after_admission 10 []
                  (mkRequest (Some "203.0.113.7") None "GET" "/greet" [])
                  (mkRequest (Some "203.0.113.7") None "GET" "/greet" [])
                  (startup empty_disk 1793000000000) 1793000005000
                  (fun H => match H with end) (fun H => match H with end) eq_refl eq_refl)).
  reflexivity.
Defined.

Lemma rateLimiter_clients_independent_witness :
  let one := mkRequest (Some "203.0.113.7") None "GET" "/greet" [] in
  let other := mkRequest (Some "198.51.100.2") None "GET" "/greet" [] in
  let w := startup empty_disk 1793000000000 in
  fst (rateLimiter 10 [] other (set_clock 1793000001000 (snd (rateLimiter 10 [] one w))))
  = fst (rateLimiter 10 [] other (set_clock 1793000001000 w)).
Proof.
  cbv zeta.
  apply (rateLimiter_clients_independent 10 []
           (mkRequest (Some "203.0.113.7") None "GET" "/greet" [])
           (mkRequest (Some "198.51.100.2") None "GET" "/greet" [])).
  discriminate.
Defined.



Lemma register_rejects_falsy_path_witness :
  let req := mkRequest None None "POST" "/register" [("path", JStr ""); ("response", JStr "hi")] in
  register example_StringToNumber "./data.json" req (startup empty_disk 0)
  = (Ok (Sent bad_request), startup empty_disk 0).
Proof.
  cbv zeta.
  apply (register_rejects_falsy_path example_StringToNumber "./data.json"
           (mkRequest None None "POST" "/register"
              [("path", JStr ""); ("response", JStr "hi")])
           (startup empty_disk 0) (JStr "")); [reflexivity | left; reflexivity].
Defined.

Lemma register_throws_before_writing_witness :
  let req := mkRequest None None "POST" "/register"
               [("path", JStr "/a"); ("method", JNull); ("response", JStr "hi")] in
  exists msg,
    register example_StringToNumber "./data.json" req (startup empty_disk 0)
    = (Throw (TypeError msg), startup empty_disk 0).
Proof.
  cbv zeta.
  apply (register_throws_before_writing example_StringToNumber "./data.json"
           (mkRequest None None "POST" "/register"
              [("path", JStr "/a"); ("method", JNull); ("response", JStr "hi")])
           (startup empty_disk 0)).
  - reflexivity.
  - eexists; reflexivity.
  - right. exists JNull. split; [reflexivity | discriminate].
Defined.


Lemma register_changes_one_key_witness :
  let req := mkRequest None None "POST" "/register"
               [("path", JStr "/b"); ("response", JStr "hi")] in
  let w := set_routes (fun _ => [("GET /a", mkRoute "GET" "/a" (JNum 200) (Some JNull) (JObj []))])
             (startup empty_disk 0) in
  let w' := snd (register example_StringToNumber "./data.json" req w) in
  (forall k, k <> "GET /b" -> Map_get k (routes w') = Map_get k (routes w))
  /\ map fst (routes w') = ["GET /a"; "GET /b"]
  /\ lastRequest w' = lastRequest w.
Proof.
  cbv zeta.
  apply (register_changes_one_key example_StringToNumber "./data.json"
           (mkRequest None None "POST" "/register"
              [("path", JStr "/b"); ("response", JStr "hi")])
           (set_routes (fun _ => [("GET /a", mkRoute "GET" "/a" (JNum 200) (Some JNull) (JObj []))])
              (startup empty_disk 0))).
  reflexivity.
Defined.




Lemma loadRoutes_bad_record_drops_all_witness :
  let items := [JObj [("path", JStr "/a"); ("response", JStr "hi")];
                JObj [("path", JNum 7); ("response", JStr "hi")]] in
  let w := startup (mkDisk {["./data.json" := Serialized (JArr items)]} ∅ ∅) 0 in
  exists e,
    loadRoutes "./data.json" w
    = (Ok tt, mkWorld (routes w) (lastRequest w) (disk w) (clock w)
                (("Failed to load routes:", e) :: console w)).
Proof.
  cbv zeta.
  apply (loadRoutes_bad_record_drops_all "./data.json"
           [JObj [("path", JStr "/a"); ("response", JStr "hi")];
            JObj [("path", JNum 7); ("response", JStr "hi")]]
           (JObj [("path", JNum 7); ("response", JStr "hi")])).
  - reflexivity.
  - cbn. set_solver.
  - right. left. reflexivity.
  - reflexivity.
Defined.

Lemma loadRoutes_loads_every_record_witness :
  let items := [JObj [("path", JStr "a"); ("method", JStr "put"); ("response", JStr "hi")];
                JNum 3;
                JObj [("path", JStr "/a"); ("method", JStr "PUT"); ("status", JStr "abc")]] in
  let w := startup (mkDisk {["./data.json" := Serialized (JArr items)]} ∅ ∅) 0 in
  loadRoutes "./data.json" w
  = (Ok tt,
     set_routes (fun table =>
       fold_left (fun acc item =>
         Map_set (route_key (method (item_route item)) (path (item_route item)))
           (item_route item) acc) items table) w).
Proof.
  cbv zeta.
  apply (loadRoutes_loads_every_record "./data.json").
  - reflexivity.
  - cbn. set_solver.
  - reflexivity.
Defined.

Lemma loadRoutes_ignores_non_array_witness :
  let w := startup (mkDisk {["./data.json" := Serialized (JObj [("path", JStr "/a")])]} ∅ ∅) 0 in
  loadRoutes "./data.json" w = (Ok tt, w).
Proof.
  cbv zeta.
  apply (loadRoutes_ignores_non_array "./data.json" (JObj [("path", JStr "/a")])).
  - reflexivity.
  - cbn. set_solver.
  - discriminate.
Defined.


Lemma handle_rejected_request_witness :
  let req := mkRequest (Some "203.0.113.7") None "POST" "/register"
               [("path", JStr "/b"); ("response", JStr "hi")] in
  let w := set_lastRequest (insert "203.0.113.7" 1793000000)
             (startup empty_disk 1793000005000) in
  handle example_StringToNumber example_header_rejected example_send_error "./data.json" 10 []
    example_route_matches req w
  = (Ok (Sent (too_many_requests 5)), w)
  /\ exists wait, 0 < wait /\ too_many_requests 5 = too_many_requests wait.
Proof.
  cbv zeta.
  apply (handle_rejected_request example_StringToNumber example_header_rejected
           example_send_error "./data.json" 10 [] example_route_matches).
  vm_compute. reflexivity.
Defined.

